(** * trueblocks-scraper-go: the periodic HTTP checker of [main.go]

    A shallow embedding of [main.go]: the configuration holder
    ([config], [init]), the shutdown helper ([cancel]), the control loop
    ([run]) and the entry point ([main]).

    The program leans on three pieces of code that are not part of the
    repository: the flag package [github.com/namsral/flag], Go's value
    parsers [strconv.ParseInt] and [time.ParseDuration], and [net/http].
    The value parsers are an interface ([GoText]); every general theorem
    holds for all its implementations.  The flag package is modelled after
    its [FlagSet.Parse] (command line, then environment, then configuration
    file).  An HTTP exchange is an input of the loop. *)

From Stdlib Require Import ZArith List String Ascii Bool Lia.
From stdpp Require Import base option gmap strings.
Import ListNotations.

Local Open Scope Z_scope.

(** ** Go values *)

(** [time.Duration] is a count of nanoseconds. *)
Definition Duration := Z.
Definition Nanosecond : Duration := 1.
Definition Microsecond : Duration := 1000 * Nanosecond.
Definition Millisecond : Duration := 1000 * Microsecond.
Definition Second : Duration := 1000 * Millisecond.
Definition Minute : Duration := 60 * Second.
Definition Hour : Duration := 60 * Minute.

(** The text parsers of the Go runtime that the flag values call:
    [strconv.ParseInt(s, 0, 64)] for [flags.Int] and [time.ParseDuration]
    for [flags.Duration].  [None] is a non-nil error. *)
Class GoText := {
  ParseInt : string -> option Z;
  ParseDuration : string -> option Duration
}.

Definition isDigit (c : ascii) : bool :=
  ((48 <=? nat_of_ascii c) && (nat_of_ascii c <=? 57))%nat.

Definition digitVal (c : ascii) : Z := Z.of_nat (nat_of_ascii c) - 48.

(** The longest prefix of decimal digits, as a number, and the rest. *)
Fixpoint leadingInt (acc : Z) (s : string) : Z * string :=
  match s with
  | String c s' =>
      if isDigit c then leadingInt (10 * acc + digitVal c) s' else (acc, s)
  | EmptyString => (acc, s)
  end.

Definition dropSign (s : string) : bool * string :=
  match s with
  | String "-"%char s' => (true, s')
  | String "+"%char s' => (false, s')
  | _ => (false, s)
  end.

Definition int64_min : Z := - 2 ^ 63.
Definition int64_max : Z := 2 ^ 63 - 1.

(** Decimal literals within int64: an optional sign, then either a single
    zero or digits that do not start with a zero.  Every Go
    release reads these in base 10; other spellings (prefixes, leading
    zeros, underscores) are left to the release at hand and refused here. *)
Definition decimalInt (s : string) : option Z :=
  let '(neg, body) := dropSign s in
  match body with
  | EmptyString => None
  | String c rest =>
      if negb (isDigit c) then None
      else if Ascii.eqb c "0"%char && negb (String.eqb rest "") then None
      else
        match leadingInt 0 body with
        | (n, EmptyString) =>
            let v := if neg then - n else n in
            if (int64_min <=? v) && (v <=? int64_max) then Some v else None
        | _ => None
        end
  end.

(** The unit table of [time.ParseDuration] (ASCII spellings). *)
Definition unitMap (u : string) : option Duration :=
  if String.eqb u "ns" then Some Nanosecond
  else if String.eqb u "us" then Some Microsecond
  else if String.eqb u "ms" then Some Millisecond
  else if String.eqb u "s" then Some Second
  else if String.eqb u "m" then Some Minute
  else if String.eqb u "h" then Some Hour
  else None.

(** The unit run: everything up to the next digit or dot. *)
Fixpoint leadingUnit (s : string) : string * string :=
  match s with
  | String c s' =>
      if isDigit c || Ascii.eqb c "."%char then (EmptyString, s)
      else let '(u, r) := leadingUnit s' in (String c u, r)
  | EmptyString => (EmptyString, s)
  end.

(** One or more [<digits><unit>] groups, summed. *)
Fixpoint durationGroups (fuel : nat) (acc : Z) (s : string) : option Z :=
  match fuel with
  | O => None
  | S fuel' =>
      match s with
      | EmptyString => Some acc
      | String c _ =>
          if negb (isDigit c) then None
          else
            let '(v, r) := leadingInt 0 s in
            let '(u, r') := leadingUnit r in
            match unitMap u with
            | Some unit => durationGroups fuel' (acc + v * unit) r'
            | None => None
            end
      end
  end.

(** Whole-number durations within int64: an optional sign, then one or
    more groups of digits and a unit, or a bare zero.  Fractions go through float64 in Go and are refused here. *)
Definition wholeDuration (s : string) : option Duration :=
  let '(neg, body) := dropSign s in
  if String.eqb body "0" then Some 0
  else
    match body with
    | EmptyString => None
    | _ =>
        match durationGroups (S (String.length body)) 0 body with
        | Some d =>
            if neg then (if d <=? 2 ^ 63 then Some (- d) else None)
            else (if d <=? int64_max then Some d else None)
        | None => None
        end
    end.

(** The reference runtime on which the model is evaluated at concrete
    command lines. *)
Definition refText : GoText :=
  {| ParseInt := decimalInt; ParseDuration := wholeDuration |}.

(** ** The flag set of [init]

    [github.com/namsral/flag] is Go's [flag] package extended with
    environment variables and a configuration file.  [init] builds one flag
    set with seven flags, none of them boolean; the model is the package
    specialised to that flag set.  The value cells that [flags.Int],
    [flags.Duration] and [flags.String] return pointers to are the fields of
    [Cells]. *)
Module flag.

Inductive ErrorHandling := ContinueOnError | ExitOnError | PanicOnError.

(** [flag.DefaultConfigFlagname] *)
Definition DefaultConfigFlagname : string := "config".

(** The flags declared at lines 30-38 of [main.go]. *)
Inductive Name := Config | Status | Tick | Server | ContentType | UserAgent | Url.

Definition nameText (n : Name) : string :=
  match n with
  | Config => DefaultConfigFlagname
  | Status => "status"
  | Tick => "tick"
  | Server => "server"
  | ContentType => "content_type"
  | UserAgent => "user_agent"
  | Url => "url"
  end.

Definition allNames : list Name :=
  [Config; Status; Tick; Server; ContentType; UserAgent; Url].

(** The map [f.formal], from the text of a name to its flag. *)
Definition formal (name : string) : option Name :=
  List.find (fun n => String.eqb (nameText n) name) allNames.

Record Cells := {
  configFile : string;
  statusCode : Z;
  tick : Duration;
  server : string;
  contentType : string;
  userAgent : string;
  url : string
}.

(** [flag.Value.Set(value)]: the cell is written when the text parses. *)
Definition set `{GoText} (n : Name) (value : string) (c : Cells) : option Cells :=
  match n with
  | Config =>
      Some {| configFile := value; statusCode := statusCode c; tick := tick c;
              server := server c; contentType := contentType c;
              userAgent := userAgent c; url := url c |}
  | Status =>
      match ParseInt value with
      | Some v =>
          Some {| configFile := configFile c; statusCode := v; tick := tick c;
                  server := server c; contentType := contentType c;
                  userAgent := userAgent c; url := url c |}
      | None => None
      end
  | Tick =>
      match ParseDuration value with
      | Some d =>
          Some {| configFile := configFile c; statusCode := statusCode c; tick := d;
                  server := server c; contentType := contentType c;
                  userAgent := userAgent c; url := url c |}
      | None => None
      end
  | Server =>
      Some {| configFile := configFile c; statusCode := statusCode c; tick := tick c;
              server := value; contentType := contentType c;
              userAgent := userAgent c; url := url c |}
  | ContentType =>
      Some {| configFile := configFile c; statusCode := statusCode c; tick := tick c;
              server := server c; contentType := value;
              userAgent := userAgent c; url := url c |}
  | UserAgent =>
      Some {| configFile := configFile c; statusCode := statusCode c; tick := tick c;
              server := server c; contentType := contentType c;
              userAgent := value; url := url c |}
  | Url =>
      Some {| configFile := configFile c; statusCode := statusCode c; tick := tick c;
              server := server c; contentType := contentType c;
              userAgent := userAgent c; url := value |}
  end.

(** Where a binding was read. *)
Inductive Source := FromArgs | FromEnv | FromFile.

(** The errors of the package.  All but [ErrOpen] go through [failf], which
    prints the error and the usage text to standard error. *)
Inductive Error :=
  | ErrBadSyntax (arg : string)
  | ErrNotDefined (src : Source) (name : string)
  | ErrNeedsArgument (src : Source) (name : string)
  | ErrInvalidValue (src : Source) (value name : string)
  | ErrHelp
  | ErrOpen (path : string).

Record FlagSet := {
  name : string;
  errorHandling : ErrorHandling;
  cells : Cells;
  actual : gset string;
  args : list string
}.

Definition withArgs (f : FlagSet) (a : list string) : FlagSet :=
  {| name := name f; errorHandling := errorHandling f; cells := cells f;
     actual := actual f; args := a |}.

(** [f.actual[name] = flag] after a successful [Set]. *)
Definition assigned (f : FlagSet) (nm : string) (c : Cells) : FlagSet :=
  {| name := name f; errorHandling := errorHandling f; cells := c;
     actual := {[ nm ]} ∪ actual f; args := args f |}.

(** The first separator of [s]: the text before it and the text after it. *)
Fixpoint cutAt (sep : ascii -> bool) (s : string) : option (string * string) :=
  match s with
  | EmptyString => None
  | String c s' =>
      if sep c then Some (EmptyString, s')
      else match cutAt sep s' with
           | Some (a, b) => Some (String c a, b)
           | None => None
           end
  end.

Definition isEq (c : ascii) : bool := Ascii.eqb c "="%char.

(** [for i := 1; i < len(name); i++]: an equals sign cannot be first. *)
Definition splitNameValue (nm : string) : string * option string :=
  match nm with
  | String c0 tl =>
      match cutAt isEq tl with
      | Some (a, b) => (String c0 a, Some b)
      | None => (nm, None)
      end
  | EmptyString => (nm, None)
  end.

Definition badStart (nm : string) : bool :=
  match nm with
  | EmptyString => true
  | String c _ => Ascii.eqb c "-"%char || Ascii.eqb c "="%char
  end.

Definition isHelp (nm : string) : bool := String.eqb nm "help" || String.eqb nm "h".

Definition undefined (src : Source) (nm : string) : Error :=
  if isHelp nm then ErrHelp else ErrNotDefined src nm.

(** [parseOne]: one flag of the command line.  The result is [seen], the
    error and the flag set afterwards. *)
Definition parseOne `{GoText} (f : FlagSet) : bool * option Error * FlagSet :=
  match args f with
  | [] => (false, None, f)
  | s :: rest =>
      match s with
      | String "-"%char (String c1 s2 as s1) =>
          let twoMinuses := Ascii.eqb c1 "-"%char in
          if twoMinuses && String.eqb s2 "" then
            (* "--" terminates the flags *)
            (false, None, withArgs f rest)
          else
            let nm := if twoMinuses then s2 else s1 in
            if badStart nm then (false, Some (ErrBadSyntax s), f)
            else if String.prefix "test." nm then (false, None, f)
            else
              let f1 := withArgs f rest in
              let '(nm, value) := splitNameValue nm in
              match formal nm with
              | None => (false, Some (undefined FromArgs nm), f1)
              | Some fl =>
                  (* the value may be the next argument *)
                  let '(value, f2) :=
                    match value, rest with
                    | None, v :: rest' => (Some v, withArgs f1 rest')
                    | _, _ => (value, f1)
                    end in
                  match value with
                  | None => (false, Some (ErrNeedsArgument FromArgs nm), f2)
                  | Some v =>
                      match set fl v (cells f2) with
                      | None => (false, Some (ErrInvalidValue FromArgs v nm), f2)
                      | Some c' => (true, None, assigned f2 nm c')
                      end
                  end
              end
      | _ => (false, None, f)
      end
  end.

(** The loop of [Parse] over the command line: [parseOne] until it reports
    no flag.  Each flag seen consumes an argument, so [S (length args)]
    rounds are enough ([parseArgs_fuel]). *)
Fixpoint parseArgs `{GoText} (fuel : nat) (f : FlagSet) : Error + FlagSet :=
  match fuel with
  | O => inr f
  | S fuel' =>
      match parseOne f with
      | (true, _, f') => parseArgs fuel' f'
      | (false, Some e, _) => inl e
      | (false, None, f') => inr f'
      end
  end.

(** [strings.ToUpper] and [strings.Replace(_, "-", "_", -1)] on ASCII. *)
Definition envChar (c : ascii) : ascii :=
  let n := nat_of_ascii c in
  if ((97 <=? n) && (n <=? 122))%nat then ascii_of_nat (n - 32)
  else if Ascii.eqb c "-"%char then "_"%char else c.

Fixpoint envText (s : string) : string :=
  match s with
  | String c s' => String (envChar c) (envText s')
  | EmptyString => EmptyString
  end.

Definition envKey (n : Name) : string := envText (nameText n).

(** The map that [ParseEnv] builds from [os.Environ()]: entries without an
    equals sign past the first byte are skipped, later entries win. *)
Definition envMap (environ : list string) : gmap string string :=
  fold_left
    (fun m s =>
       match cutAt isEq s with
       | Some (String c k, v) => <[ String c k := v ]> m
       | _ => m
       end)
    environ ∅.

(** [ParseEnv]: every flag that the command line left unset takes the value
    of its environment variable, if there is one.  Go ranges over the map
    [f.formal] in no fixed order; the order only decides which of several
    failing variables is reported. *)
Fixpoint parseEnvFlags `{GoText} (env : gmap string string) (names : list Name)
    (f : FlagSet) : Error + FlagSet :=
  match names with
  | [] => inr f
  | n :: names' =>
      if bool_decide (nameText n ∈ actual f) then parseEnvFlags env names' f
      else
        match env !! envKey n with
        | None => parseEnvFlags env names' f
        | Some value =>
            match set n value (cells f) with
            | None => inl (ErrInvalidValue FromEnv value (nameText n))
            | Some c' => parseEnvFlags env names' (assigned f (nameText n) c')
            end
        end
  end.

Definition ParseEnv `{GoText} (f : FlagSet) (environ : list string) : Error + FlagSet :=
  parseEnvFlags (envMap environ) allNames f.

Definition isEqOrSpace (c : ascii) : bool :=
  Ascii.eqb c "="%char || Ascii.eqb c " "%char.

(** The files that [os.Open] can read, as the lines a [bufio.Scanner]
    yields; [None] when the file cannot be opened. *)
Definition FileSystem := string -> option (list string).

(** The loop of [ParseFile] over the lines: [key=value] or [key value];
    empty lines and [#] comments are skipped, and so is a flag that is
    already set. *)
Fixpoint parseLines `{GoText} (lines : list string) (f : FlagSet) : Error + FlagSet :=
  match lines with
  | [] => inr f
  | line :: more =>
      if String.eqb line "" then parseLines more f
      else if String.prefix "#" line then parseLines more f
      else
        let '(nm, value) :=
          match cutAt isEqOrSpace line with
          | Some (a, b) => (a, Some b)
          | None => (line, None)
          end in
        if bool_decide (nm ∈ actual f) then parseLines more f
        else
          match formal nm with
          | None => inl (undefined FromFile nm)
          | Some fl =>
              match value with
              | None => inl (ErrNeedsArgument FromFile nm)
              | Some v =>
                  match set fl v (cells f) with
                  | None => inl (ErrInvalidValue FromFile v nm)
                  | Some c' => parseLines more (assigned f nm c')
                  end
              end
          end
  end.

Definition ParseFile `{GoText} (f : FlagSet) (disk : FileSystem) (path : string)
    : Error + FlagSet :=
  match disk path with
  | None => inl (ErrOpen path)
  | Some lines => parseLines lines f
  end.

(** How a call of [Parse] ends. *)
Inductive Outcome :=
  | Returns (err : option Error) (f : FlagSet)
  | Exits (code : Z) (err : Error)
  | Panics (err : Error).

(** The [switch f.errorHandling] that follows every failure in [Parse]. *)
Definition fail (f : FlagSet) (e : Error) : Outcome :=
  match errorHandling f with
  | ContinueOnError => Returns (Some e) f
  | ExitOnError => Exits 2 e
  | PanicOnError => Panics e
  end.

(** [Parse]: the command line, then the environment, then the configuration
    file named by the [config] flag when that is not empty. *)
Definition Parse `{GoText} (f : FlagSet) (arguments environ : list string)
    (disk : FileSystem) : Outcome :=
  match parseArgs (S (length arguments)) (withArgs f arguments) with
  | inl e => fail f e
  | inr f1 =>
      match ParseEnv f1 environ with
      | inl e => fail f e
      | inr f2 =>
          let cFile := configFile (cells f2) in
          if String.eqb cFile "" then Returns None f2
          else
            match ParseFile f2 disk cFile with
            | inl e => fail f e
            | inr f3 => Returns None f3
            end
      end
  end.

(** Whether the package printed the error before it ended the call. *)
Definition printed (e : Error) : bool :=
  match e with
  | ErrOpen _ => false
  | _ => true
  end.

End flag.

(** ** [net/http] *)

(** [textproto.CanonicalMIMEHeaderKey]: a key made of header-field bytes
    gets an upper-case letter first and after every hyphen and lower-case
    letters elsewhere; any other key is returned as it is. *)
Definition isLower (c : ascii) : bool :=
  ((97 <=? nat_of_ascii c) && (nat_of_ascii c <=? 122))%nat.
Definition isUpper (c : ascii) : bool :=
  ((65 <=? nat_of_ascii c) && (nat_of_ascii c <=? 90))%nat.

Definition validHeaderFieldByte (c : ascii) : bool :=
  isLower c || isUpper c || isDigit c
  || existsb (Ascii.eqb c) (list_ascii_of_string "!#$%&'*+-.^_`|~").

Fixpoint canonicalCase (upper : bool) (s : string) : string :=
  match s with
  | String c s' =>
      let c' :=
        if upper && isLower c then ascii_of_nat (nat_of_ascii c - 32)
        else if negb upper && isUpper c then ascii_of_nat (nat_of_ascii c + 32)
        else c in
      String c' (canonicalCase (Ascii.eqb c' "-"%char) s')
  | EmptyString => EmptyString
  end.

Definition CanonicalMIMEHeaderKey (s : string) : string :=
  if forallb validHeaderFieldByte (list_ascii_of_string s)
  then canonicalCase true s else s.

(** [http.Header] is [map[string][]string]; [Get] returns the first value
    under the canonical key, or the empty string. *)
Definition HeaderGet (h : gmap string (list string)) (key : string) : string :=
  match h !! CanonicalMIMEHeaderKey key with
  | Some (v :: _) => v
  | _ => ""
  end.

Record Response := {
  StatusCode : Z;
  Header : gmap string (list string)
}.

(** What [http.Get] hands back: a response, with any status, or a
    transport error. *)
Inductive GetResult :=
  | GetOk (resp : Response)
  | GetErr (err : string).

(** ** [main.go] *)

Definition defaultTick : Duration := 60 * Second.

Record config := {
  contentType : string;
  server : string;
  statusCode : Z;
  tick : Duration;
  url : string;
  userAgent : string
}.

(** [&config{}] *)
Definition zeroConfig : config :=
  {| contentType := ""; server := ""; statusCode := 0; tick := 0;
     url := ""; userAgent := "" |}.

(** The process as the operating system started it. *)
Record Process := {
  Args : list string;
  Environ : list string;
  Pid : Z
}.

(** Lines 29-39: the flag set and the defaults of its seven flags. *)
Definition NewFlagSet (prog : string) (h : flag.ErrorHandling) : flag.FlagSet :=
  {| flag.name := prog;
     flag.errorHandling := h;
     flag.cells :=
       {| flag.configFile := "";
          flag.statusCode := 200;
          flag.tick := defaultTick;
          flag.server := "";
          flag.contentType := "";
          flag.userAgent := "";
          flag.url := "" |};
     flag.actual := ∅;
     flag.args := [] |}.

(** How a call of [init] ends. *)
Inductive InitOutcome :=
  | InitReturn (err : option flag.Error)
  | InitExit (code : Z) (err : flag.Error)
  | InitPanic.

(** [func (c *config) init(args []string) error].  The second component is
    the configuration that [c] points to when the call ends. *)
Definition init `{GoText} (c : config) (args environ : list string)
    (disk : flag.FileSystem) : InitOutcome * config :=
  match args with
  | [] => (InitPanic, c)    (* args[0]: index out of range *)
  | prog :: rest =>
      let flags := NewFlagSet prog flag.ExitOnError in
      match flag.Parse flags rest environ disk with
      | flag.Returns (Some err) _ => (InitReturn (Some err), c)
      | flag.Returns None f =>
          let v := flag.cells f in
          (InitReturn None,
           {| statusCode := flag.statusCode v;
              tick := flag.tick v;
              server := flag.server v;
              contentType := flag.contentType v;
              userAgent := flag.userAgent v;
              url := flag.url v |})
      | flag.Exits code err => (InitExit code err, c)
      | flag.Panics _ => (InitPanic, c)
      end
  end.

Inductive Signal := SIGINT | SIGTERM | SIGHUP.

(** What one [select] of the loop can receive. *)
Inductive Event :=
  | Signalled (s : Signal)     (* s := <-signalChan *)
  | Cancelled                  (* <-ctx.Done() *)
  | Ticked (r : GetResult).    (* <-time.Tick(c.tick), then http.Get(c.url) *)

(** A line of the logger, as the call that wrote it and its operands. *)
Inductive Line :=
  | Starting (tick : Duration) (pid : Z)   (* "Starting...", c.tick, os.Getpid() *)
  | GotTerm                                (* "Got SIGINT/SIGTERM, exiting." *)
  | Dying                                  (* "I am dying, please wait..." *)
  | Dead                                   (* "I am dead." *)
  | GotHup                                 (* "Got SIGHUP, reloading." *)
  | PidLine (pid : Z)                      (* os.Getpid(), ": " *)
  | StatusMismatch (got : Z)               (* "Status code mismatch, got: %d" *)
  | ServerMismatch (got : string)          (* "Server header mismatch, got: %s" *)
  | ContentTypeMismatch (got : string)     (* "Content-Type header mismatch, got: %s" *)
  | UserAgentMismatch (got : string).      (* "User-Agent header mismatch, got: %s" *)

Inductive error :=
  | ConfigError (e : flag.Error)
  | TransportError (msg : string).

(** What the process does to the outside, in the order it does it. *)
Inductive Effect :=
  | Load (args : list string)   (* a call of c.init *)
  | Stderr (e : error)          (* an error written to standard error *)
  | Log (l : Line)              (* a line written to out *)
  | Sleep (d : Duration)        (* time.Sleep *)
  | Get (url : string).         (* http.Get *)

Inductive Status :=
  | Running                     (* inside the for/select loop *)
  | Returned (err : option error)   (* run has returned *)
  | Exited (code : Z)           (* os.Exit, or the end of main *)
  | Panicked.

Record Machine := {
  cfg : config;
  effects : list Effect;
  status : Status
}.

Definition emit (m : Machine) (es : list Effect) : Machine :=
  {| cfg := cfg m; effects := effects m ++ es; status := status m |}.

Definition halt (m : Machine) (s : Status) : Machine :=
  {| cfg := cfg m; effects := effects m; status := s |}.

(** [c.init(os.Args)] as [run] calls it: the returned error is dropped. *)
Definition load `{GoText} (p : Process) (disk : flag.FileSystem) (m : Machine) : Machine :=
  let m1 := emit m [Load (Args p)] in
  match init (cfg m) (Args p) (Environ p) disk with
  | (InitReturn _, c') =>
      {| cfg := c'; effects := effects m1; status := status m1 |}
  | (InitExit code e, c') =>
      let m2 := if flag.printed e then emit m1 [Stderr (ConfigError e)] else m1 in
      {| cfg := c'; effects := effects m2; status := Exited code |}
  | (InitPanic, c') =>
      {| cfg := c'; effects := effects m1; status := Panicked |}
  end.

(** [func cancel()] *)
Definition cancel (m : Machine) : Machine :=
  emit m [Log Dying; Sleep (2 * Second); Log Dead].

(** Lines 62-67 of [run]: everything before the loop. *)
Definition start `{GoText} (p : Process) (disk : flag.FileSystem) (c : config) : Machine :=
  let m := load p disk {| cfg := c; effects := []; status := Running |} in
  match status m with
  | Running => emit m [Log (Starting (tick (cfg m)) (Pid p))]
  | _ => m
  end.

(** Lines 84-103: the probe cycle. *)
Definition probe (p : Process) (m : Machine) (r : GetResult) : Machine :=
  let c := cfg m in
  let m := emit m [Get (url c)] in
  match r with
  | GetErr err => halt m (Returned (Some (TransportError err)))
  | GetOk resp =>
      let m := emit m [Log (PidLine (Pid p))] in
      let m :=
        if negb (StatusCode resp =? statusCode c)
        then emit m [Log (StatusMismatch (StatusCode resp))] else m in
      let s := HeaderGet (Header resp) "server" in
      let m :=
        if negb (String.eqb s (server c))
        then emit m [Log (ServerMismatch s)] else m in
      let ct := HeaderGet (Header resp) "content-type" in
      let m :=
        if negb (String.eqb ct (contentType c))
        then emit m [Log (ContentTypeMismatch ct)] else m in
      let ua := HeaderGet (Header resp) "user-agent" in
      let m :=
        if negb (String.eqb ua (userAgent c))
        then emit m [Log (UserAgentMismatch ua)] else m in
      m
  end.

(** One round of the loop of [run] on the event that its [select] received.
    [None]: the event cannot be received in this state, because the loop
    has ended or because [time.Tick] of a duration that is not positive is
    the nil channel. *)
Definition step `{GoText} (p : Process) (disk : flag.FileSystem) (m : Machine)
    (ev : Event) : option Machine :=
  match status m with
  | Running =>
      match ev with
      | Signalled SIGINT | Signalled SIGTERM =>
          Some (halt (cancel (emit m [Log GotTerm])) (Exited 1))
      | Signalled SIGHUP =>
          Some (load p disk (emit m [Log GotHup]))
      | Cancelled => Some (halt m (Returned None))
      | Ticked r =>
          if 0 <? tick (cfg m) then Some (probe p m r) else None
      end
  | _ => None
  end.

(** The loop on a sequence of events, each with the files as they are when
    it is received. *)
Fixpoint rounds `{GoText} (p : Process) (m : Machine)
    (evs : list (flag.FileSystem * Event)) : option Machine :=
  match evs with
  | [] => Some m
  | (disk, ev) :: evs' =>
      match step p disk m ev with
      | Some m' => rounds p m' evs'
      | None => None
      end
  end.

(** [func run(ctx, c, out) error] *)
Definition run `{GoText} (p : Process) (disk : flag.FileSystem) (c : config)
    (evs : list (flag.FileSystem * Event)) : option Machine :=
  rounds p (start p disk c) evs.

(** [func main()]: an error of [run] goes to standard error and the process
    exits with 1; otherwise main returns and the process exits with 0. *)
Definition main `{GoText} (p : Process) (disk : flag.FileSystem)
    (evs : list (flag.FileSystem * Event)) : option Machine :=
  match run p disk zeroConfig evs with
  | Some m =>
      match status m with
      | Returned (Some err) => Some (halt (emit m [Stderr err]) (Exited 1))
      | Returned None => Some (halt m (Exited 0))
      | _ => Some m
      end
  | None => None
  end.

(** ** Vocabulary of the statements *)

(** An option as the command line supplies it: the flag, the number of
    dashes, and the value either as the next argument or after an equals
    sign. *)
Inductive Spelling := NextArgument | AfterEquals.

Record Binding := {
  bname : flag.Name;
  bdouble : bool;
  bspelling : Spelling;
  bvalue : string
}.

Definition render (b : Binding) : list string :=
  let head := String.append (if bdouble b then "--" else "-") (flag.nameText (bname b)) in
  match bspelling b with
  | NextArgument => [head; bvalue b]
  | AfterEquals => [String.append head (String "="%char (bvalue b))]
  end.

(** The value that a list of options supplies for a flag: the last one. *)
Fixpoint supplied (n : flag.Name) (bs : list Binding) : option string :=
  match bs with
  | [] => None
  | b :: bs' =>
      match supplied n bs' with
      | Some v => Some v
      | None =>
          match n, bname b with
          | flag.Config, flag.Config | flag.Status, flag.Status
          | flag.Tick, flag.Tick | flag.Server, flag.Server
          | flag.ContentType, flag.ContentType
          | flag.UserAgent, flag.UserAgent | flag.Url, flag.Url => Some (bvalue b)
          | _, _ => None
          end
      end
  end.

(** The value of an option cannot be parsed into the type of its flag. *)
Definition malformed `{GoText} (b : Binding) : Prop :=
  match bname b with
  | flag.Status => ParseInt (bvalue b) = None
  | flag.Tick => ParseDuration (bvalue b) = None
  | _ => False
  end.

(** The text of a value parses into the type of a flag. *)
Definition parses `{GoText} (n : flag.Name) (v : string) : Prop :=
  match n with
  | flag.Status => is_Some (ParseInt v)
  | flag.Tick => is_Some (ParseDuration v)
  | _ => True
  end.

(** The value of an option parses into the type of its flag. *)
Definition wellFormed `{GoText} (b : Binding) : Prop :=
  parses (bname b) (bvalue b).

(** The value that the command line and the environment supply for a flag:
    the last option of that name, and without one the variable of the
    flag. *)
Definition layered (environ : list string) (bs : list Binding) (n : flag.Name)
    : option string :=
  match supplied n bs with
  | Some v => Some v
  | None => flag.envMap environ !! flag.envKey n
  end.

(** The environment is well formed for the flags that the command line
    leaves to it. *)
Definition envWellFormed `{GoText} (environ : list string) (bs : list Binding) : Prop :=
  forall n v,
    supplied n bs = None ->
    flag.envMap environ !! flag.envKey n = Some v -> parses n v.

(** The options in order, applied to a flag set. *)
Fixpoint bindAll `{GoText} (bs : list Binding) (f : flag.FlagSet)
    : flag.Error + flag.FlagSet :=
  match bs with
  | [] => inr f
  | b :: bs' =>
      match flag.set (bname b) (bvalue b) (flag.cells f) with
      | None =>
          inl (flag.ErrInvalidValue flag.FromArgs (bvalue b) (flag.nameText (bname b)))
      | Some c' => bindAll bs' (flag.assigned f (flag.nameText (bname b)) c')
      end
  end.

(** The effects that happened between two states of the process. *)
Definition since (m m' : Machine) : list Effect :=
  drop (length (effects m)) (effects m').

(** The lines written to the log among some effects. *)
Definition logged (es : list Effect) : list Line :=
  flat_map (fun e => match e with Log l => [l] | _ => [] end) es.

(** The number of calls of [init] among some effects. *)
Definition loads (es : list Effect) : nat :=
  length (List.filter (fun e => match e with Load _ => true | _ => false end) es).

(** The number of probes among some effects. *)
Definition probes (es : list Effect) : nat :=
  length (List.filter (fun e => match e with Get _ => true | _ => false end) es).

Definition isMismatch (l : Line) : bool :=
  match l with
  | StatusMismatch _ | ServerMismatch _ | ContentTypeMismatch _
  | UserAgentMismatch _ => true
  | _ => false
  end.

(** A line, present when the condition holds. *)
Definition when (P : Prop) `{Decision P} (l : Line) : list Line :=
  if decide P then [l] else [].

#[global] Instance Name_eq_dec : EqDecision flag.Name.
Proof. solve_decision. Defined.

(** The cells [c0] with every flag that has a value set to it, parsed. *)
Definition resolveBy `{GoText} (val : flag.Name -> option string) (c0 : flag.Cells)
    : flag.Cells :=
  {| flag.configFile := default (flag.configFile c0) (val flag.Config);
     flag.statusCode := default (flag.statusCode c0) (val flag.Status ≫= ParseInt);
     flag.tick := default (flag.tick c0) (val flag.Tick ≫= ParseDuration);
     flag.server := default (flag.server c0) (val flag.Server);
     flag.contentType := default (flag.contentType c0) (val flag.ContentType);
     flag.userAgent := default (flag.userAgent c0) (val flag.UserAgent);
     flag.url := default (flag.url c0) (val flag.Url) |}.

Definition override (val : flag.Name -> option string) (n : flag.Name) (v : string)
    : flag.Name -> option string :=
  fun k => if decide (k = n) then Some v else val k.

(** No file can be opened. *)
Definition noFiles : flag.FileSystem := fun _ => None.

(** One readable file. *)
Definition oneFile (path : string) (lines : list string) : flag.FileSystem :=
  fun q => if String.eqb q path then Some lines else None.

(** A process started with a configuration file, and that file before and
    after somebody edits it. *)
Definition reloadProcess : Process :=
  {| Args := ["scraper"; "-config"; "scraper.conf"; "-url"; "http://localhost/"];
     Environ := ["HOME=/root"; "SERVER=nginx"];
     Pid := 4242 |}.
Definition fileAtStart : flag.FileSystem := oneFile "scraper.conf" ["status=200"].
Definition fileAtReload : flag.FileSystem := oneFile "scraper.conf" ["status=abc"].

(** A process whose command line asks for a zero interval. *)
Definition zeroTickArgs : list string := ["scraper"; "-tick"; "0s"].
Definition negativeTickArgs : list string := ["scraper"; "--tick=-5s"].

(** The response and the two sets of expectations of the checks. *)
Definition nginxResponse : Response :=
  {| StatusCode := 200;
     Header :=
       <[ "Server" := ["nginx"] ]>
         (<[ "Content-Type" := ["text/html"] ]>
            (<[ "User-Agent" := [""] ]> ∅)) |}.

Definition expecting (st : Z) (srv ct ua : string) (u : string) (t : Duration) : config :=
  {| contentType := ct; server := srv; statusCode := st; tick := t;
     url := u; userAgent := ua |}.

(** The mismatch lines of one probe cycle. *)
Definition mismatches (p : Process) (m : Machine) (resp : Response) : list Line :=
  List.filter isMismatch (logged (since m (probe p m (GetOk resp)))).

(** An option spelled with one dash and its value as the next argument. *)
Definition option_ (n : flag.Name) (v : string) : Binding :=
  {| bname := n; bdouble := false; bspelling := NextArgument; bvalue := v |}.

(** The options of the examples. *)
Definition validOptions : list Binding :=
  [option_ flag.Status "404";
   {| bname := flag.Url; bdouble := true; bspelling := AfterEquals;
      bvalue := "http://localhost/" |}].
(** A process whose status option is not a number. *)
Definition malformedProcess : Process :=
  {| Args := ["scraper"; "-status"; "abc"; "-url"; "http://localhost/"];
     Environ := ["HOME=/root"];
     Pid := 4242 |}.
(** [reloadProcess] once it has entered the loop. *)
Definition started : Machine := @start refText reloadProcess fileAtStart zeroConfig.

(** The events of a run that fire the ticker, and those that are hang-ups. *)
Definition isTick (ev : Event) : bool :=
  match ev with Ticked _ => true | _ => false end.
Definition isHangup (ev : Event) : bool :=
  match ev with Signalled SIGHUP => true | _ => false end.

Definition ticks (evs : list (flag.FileSystem * Event)) : nat :=
  length (List.filter (fun de => isTick (snd de)) evs).
Definition hangups (evs : list (flag.FileSystem * Event)) : nat :=
  length (List.filter (fun de => isHangup (snd de)) evs).

(** The urls requested among some effects, in order. *)
Definition requested (es : list Effect) : list string :=
  flat_map (fun e => match e with Get u => [u] | _ => [] end) es.

(** The number of start lines among some lines. *)
Definition starts (ls : list Line) : nat :=
  length (List.filter (fun l => match l with Starting _ _ => true | _ => false end) ls).

(** The last event of a run satisfies [P]. *)
Definition endsWith (evs : list (flag.FileSystem * Event)) (P : Event -> Prop) : Prop :=
  exists pre d e, evs = pre ++ [(d, e)] /\ P e.

(** What the exit status of the process says about the events of the run
    and the argument list. *)
Definition exitCause (args : list string) (evs : list (flag.FileSystem * Event))
    (s : Status) : Prop :=
  match s with
  | Running => True
  | Returned _ => False
  | Panicked => args = []
  | Exited code =>
      (code = 0 /\ endsWith evs (fun e => e = Cancelled)) \/
      (code = 1 /\
       endsWith evs (fun e => e = Signalled SIGINT \/ e = Signalled SIGTERM \/
                              exists err, e = Ticked (GetErr err))) \/
      (code = 2 /\ (evs = [] \/ endsWith evs (fun e => e = Signalled SIGHUP)))
  end.

(** An argument that [parseOne] does not take for a flag: the empty string,
    one that does not start with a dash, or a lone dash. *)
Definition positional (s : string) : bool :=
  match s with
  | String "-"%char (String _ _) => false
  | _ => true
  end.

(** A flag named without a value. *)
Definition bare (n : flag.Name) (double : bool) : string :=
  String.append (if double then "--" else "-") (flag.nameText n).






(** The configuration that [init] assigns from the cells of the flag set. *)
Definition configOf (v : flag.Cells) : config :=
  {| statusCode := flag.statusCode v;
     tick := flag.tick v;
     server := flag.server v;
     contentType := flag.contentType v;
     userAgent := flag.userAgent v;
     url := flag.url v |}.

(** A result of a pass, with the arguments that are left put back. *)
Definition keepArgs (a : list string) (r : flag.Error + flag.FlagSet)
    : flag.Error + flag.FlagSet :=
  match r with
  | inl e => inl e
  | inr f => inr (flag.withArgs f a)
  end.

(** What [init] makes of the flag set that the loop over the command line
    leaves: the environment, the file, and the assignment of the fields. *)
Definition finish `{GoText} (c : config) (flags f1 : flag.FlagSet)
    (environ : list string) (disk : flag.FileSystem) : InitOutcome * config :=
  match
    match flag.ParseEnv f1 environ with
    | inl e => flag.fail flags e
    | inr f2 =>
        let cFile := flag.configFile (flag.cells f2) in
        if String.eqb cFile "" then flag.Returns None f2
        else
          match flag.ParseFile f2 disk cFile with
          | inl e => flag.fail flags e
          | inr f3 => flag.Returns None f3
          end
    end
  with
  | flag.Returns (Some err) _ => (InitReturn (Some err), c)
  | flag.Returns None f => (InitReturn None, configOf (flag.cells f))
  | flag.Exits code err => (InitExit code err, c)
  | flag.Panics _ => (InitPanic, c)
  end.

(** Runs of [reloadProcess] from [started]: a probe, a hang-up and a failed
    probe; and two probes. *)
Definition sampleRun : list (flag.FileSystem * Event) :=
  [(fileAtStart, Ticked (GetOk nginxResponse));
   (fileAtStart, Signalled SIGHUP);
   (fileAtStart, Ticked (GetErr "connection refused"))].
Definition quietRun : list (flag.FileSystem * Event) :=
  [(fileAtStart, Ticked (GetOk nginxResponse));
   (fileAtStart, Ticked (GetOk nginxResponse))].

(** The state at the end of a run, and the state at its start if the run
    cannot happen. *)
Definition endOf (p : Process) (m : Machine) (evs : list (flag.FileSystem * Event))
    : Machine :=
  match @rounds refText p m evs with
  | Some m' => m'
  | None => m
  end.
Definition sampleEnd : Machine := Eval vm_compute in endOf reloadProcess started sampleRun.
Definition quietEnd : Machine := Eval vm_compute in endOf reloadProcess started quietRun.

(** A process whose command line asks for a zero interval, in the loop. *)
Definition zeroTickProcess : Process :=
  {| Args := zeroTickArgs; Environ := ["HOME=/root"]; Pid := 4242 |}.
Definition zeroTickStarted : Machine :=
  Eval vm_compute in @start refText zeroTickProcess noFiles zeroConfig.

Definition fileOptions : list Binding :=
  [option_ flag.Config "scraper.conf"; option_ flag.Url "http://localhost/"].

(** ** The model on concrete inputs *)

Example decimalInt_404 : decimalInt "404" = Some 404.
Proof. reflexivity. Qed.
Example decimalInt_abc : decimalInt "abc" = None.
Proof. reflexivity. Qed.
Example wholeDuration_90s : wholeDuration "1m30s" = Some (90 * Second).
Proof. reflexivity. Qed.
Example wholeDuration_zero : wholeDuration "0s" = Some 0.
Proof. reflexivity. Qed.
Example wholeDuration_neg : wholeDuration "-5s" = Some (- (5 * Second)).
Proof. reflexivity. Qed.
Example wholeDuration_bad : wholeDuration "soon" = None.
Proof. reflexivity. Qed.

Example canonical_keys :
  CanonicalMIMEHeaderKey "server" = "Server" /\
  CanonicalMIMEHeaderKey "content-type" = "Content-Type" /\
  CanonicalMIMEHeaderKey "user-agent" = "User-Agent".
Proof. repeat split. Qed.

Example env_keys :
  map flag.envKey flag.allNames =
  ["CONFIG"; "STATUS"; "TICK"; "SERVER"; "CONTENT_TYPE"; "USER_AGENT"; "URL"].
Proof. reflexivity. Qed.

Example nginx_headers :
  HeaderGet (Header nginxResponse) "server" = "nginx" /\
  HeaderGet (Header nginxResponse) "content-type" = "text/html" /\
  HeaderGet (Header nginxResponse) "user-agent" = "".
Proof. split; [|split]; vm_compute; reflexivity. Qed.

(** ** Properties of the flag set *)

Section FlagSet.
Context `{GoText}.

(** A flag that [parseOne] has seen took at least one argument. *)
Lemma parseOne_consumes f e f' :
  flag.parseOne f = (true, e, f') ->
  (length (flag.args f') < length (flag.args f))%nat.
Proof.
  unfold flag.parseOne.
  destruct (flag.args f) as [|s rest] eqn:Ha; [discriminate|].
  destruct s as [|c0 [|c1 s2]]; intros Hp;
    repeat case_match; simplify_eq; cbn; lia.
Qed.

(** The result of the loop does not depend on the fuel, once there is more
    of it than there are arguments. *)
Lemma parseArgs_fuel n m f :
  (length (flag.args f) < n)%nat -> (length (flag.args f) < m)%nat ->
  flag.parseArgs n f = flag.parseArgs m f.
Proof.
  revert m f. induction n as [|n IH]; intros m f Hn Hm; [lia|].
  destruct m as [|m]; [lia|]. cbn.
  destruct (flag.parseOne f) as [[seen e] f'] eqn:Hp.
  destruct seen; [|reflexivity].
  apply parseOne_consumes in Hp. apply IH; lia.
Qed.

Lemma parseArgs_S n f :
  flag.parseArgs (S n) f =
  match flag.parseOne f with
  | (true, _, f') => flag.parseArgs n f'
  | (false, Some e, _) => inl e
  | (false, None, f') => inr f'
  end.
Proof. reflexivity. Qed.

(** One round of the loop, with the fuel [Parse] gives it. *)
Lemma parseArgs_round f :
  flag.parseArgs (S (length (flag.args f))) f =
  match flag.parseOne f with
  | (true, _, f') => flag.parseArgs (S (length (flag.args f'))) f'
  | (false, Some e, _) => inl e
  | (false, None, f') => inr f'
  end.
Proof.
  rewrite parseArgs_S. destruct (flag.parseOne f) as [[seen e] f'] eqn:Hp.
  destruct seen; [|reflexivity].
  apply parseOne_consumes in Hp. apply parseArgs_fuel; lia.
Qed.

(** [parseOne] reads an option back as it was rendered. *)
Lemma parseOne_render f b rest :
  flag.parseOne (flag.withArgs f (render b ++ rest)) =
  match flag.set (bname b) (bvalue b) (flag.cells f) with
  | Some c' =>
      (true, None,
       flag.assigned (flag.withArgs f rest) (flag.nameText (bname b)) c')
  | None =>
      (false,
       Some (flag.ErrInvalidValue flag.FromArgs (bvalue b) (flag.nameText (bname b))),
       flag.withArgs f rest)
  end.
Proof.
  destruct b as [n d sp v].
  destruct n, d, sp; lazy -[union singleton flag.set]; reflexivity.
Qed.

(** The loop over rendered options applies them in order, then goes on
    with what follows them. *)
Lemma parseArgs_bindings bs f rest :
  flag.parseArgs (S (length (flat_map render bs ++ rest)))
    (flag.withArgs f (flat_map render bs ++ rest)) =
  match bindAll bs f with
  | inl e => inl e
  | inr f' => flag.parseArgs (S (length rest)) (flag.withArgs f' rest)
  end.
Proof.
  revert f. induction bs as [|b bs IH]; intros f; [reflexivity|].
  change (flat_map render (b :: bs) ++ rest)
    with ((render b ++ flat_map render bs) ++ rest).
  rewrite <- app_assoc.
  pose proof (parseArgs_round (flag.withArgs f (render b ++ flat_map render bs ++ rest))) as Hr.
  cbn [flag.args flag.withArgs] in Hr. rewrite Hr. clear Hr.
  rewrite parseOne_render. cbn [bindAll].
  destruct (flag.set (bname b) (bvalue b) (flag.cells f)) as [c'|]; [|reflexivity].
  cbn [flag.args flag.assigned flag.withArgs].
  apply (IH (flag.assigned f (flag.nameText (bname b)) c')).
Qed.

Lemma set_None n v c :
  flag.set n v c = None <->
  malformed {| bname := n; bdouble := false; bspelling := NextArgument; bvalue := v |}.
Proof.
  unfold malformed; destruct n; cbn; try (split; [discriminate|tauto]).
  - destruct (ParseInt v); split; congruence.
  - destruct (ParseDuration v); split; congruence.
Qed.

End FlagSet.

Section Init.
Context `{GoText}.

Lemma supplied_In n bs w :
  supplied n bs = Some w -> exists b, In b bs /\ bname b = n /\ bvalue b = w.
Proof.
  induction bs as [|b bs IH]; [discriminate|]. cbn [supplied].
  destruct (supplied n bs) as [w'|].
  - intros [= ->]. destruct IH as (b' & ? & ? & ?); [reflexivity|].
    exists b'. split; [right|]; auto.
  - intros Hb. exists b. split; [left; reflexivity|].
    destruct n, (bname b); inversion Hb; auto.
Qed.

Lemma supplied_parses n bs w :
  Forall wellFormed bs -> supplied n bs = Some w -> parses n w.
Proof.
  intros Hwf Hs. apply supplied_In in Hs as (b & Hin & Hn & <-).
  rewrite List.Forall_forall in Hwf. specialize (Hwf b Hin).
  unfold wellFormed in Hwf. rewrite Hn in Hwf. exact Hwf.
Qed.

Lemma nameText_inj n k : flag.nameText n = flag.nameText k -> n = k.
Proof. destruct n, k; cbn; intros E; solve [reflexivity | discriminate E]. Qed.

Lemma resolveBy_ext val val' c0 :
  (forall n, val n = val' n) -> resolveBy val c0 = resolveBy val' c0.
Proof. intros E. unfold resolveBy. rewrite !E. reflexivity. Qed.

(** Setting a flag that has no value yet. *)
Lemma set_resolveBy n v val c0 :
  val n = None -> parses n v ->
  flag.set n v (resolveBy val c0) = Some (resolveBy (override val n v) c0).
Proof.
  intros Hn Hp.
  destruct n; cbn [flag.set parses] in *;
    match type of Hp with
    | True => clear Hp
    | _ => destruct Hp as [z Hz]; rewrite Hz
    end;
    f_equal; unfold resolveBy, override; cbn -[default mbind];
    repeat case_decide; try congruence;
    rewrite ?Hn; cbn; rewrite ?Hz; reflexivity.
Qed.

(** The loop over well-formed options leaves in every cell the last value
    supplied for its flag. *)
Lemma bindAll_wellFormed bs f :
  Forall wellFormed bs ->
  exists f', bindAll bs f = inr f' /\
    flag.cells f' = resolveBy (fun n => supplied n bs) (flag.cells f).
Proof.
  revert f. induction bs as [|b bs IH]; intros f Hwf.
  - exists f. split; [reflexivity|]. destruct f as [? ? []]; reflexivity.
  - apply Forall_cons in Hwf as [Hb Hwf]. cbn [bindAll].
    pose proof (fun w => supplied_parses flag.Status bs w Hwf) as Hst.
    pose proof (fun w => supplied_parses flag.Tick bs w Hwf) as Htk.
    destruct b as [n d sp v]. unfold wellFormed in Hb. cbn [bname bvalue] in *.
    assert (exists c', flag.set n v (flag.cells f) = Some c' /\
              resolveBy (fun k => supplied k bs) c' =
              resolveBy
                (fun k => supplied k
                   ({| bname := n; bdouble := d; bspelling := sp; bvalue := v |} :: bs))
                (flag.cells f)) as (c' & -> & Hc').
    { destruct n; cbn [flag.set parses] in *;
        match type of Hb with
        | True => clear Hb
        | _ => destruct Hb as [z Hz]; rewrite Hz
        end;
        (eexists; split; [reflexivity|]);
        unfold resolveBy;
        cbn [supplied bname bvalue flag.configFile flag.statusCode flag.tick
             flag.server flag.contentType flag.userAgent flag.url];
        f_equal;
        match goal with
        | |- context [supplied ?k bs] => destruct (supplied k bs) as [w|] eqn:Hw
        end;
        unfold mbind, option_bind; try reflexivity.
      - destruct (Hst w eq_refl) as [z' ->]. reflexivity.
      - rewrite Hz. reflexivity.
      - destruct (Htk w eq_refl) as [z' ->]. reflexivity.
      - rewrite Hz. reflexivity. }
    destruct (IH (flag.assigned f (flag.nameText n) c') Hwf) as (f' & -> & Hc).
    exists f'. split; [reflexivity|]. rewrite Hc. exact Hc'.
Qed.

(** The first option whose value cannot be parsed ends the loop. *)
Lemma bindAll_malformed bs f :
  Exists malformed bs ->
  exists b, In b bs /\ malformed b /\
    bindAll bs f =
    inl (flag.ErrInvalidValue flag.FromArgs (bvalue b) (flag.nameText (bname b))).
Proof.
  revert f. induction bs as [|b bs IH]; intros f Hex.
  - inversion Hex.
  - cbn [bindAll].
    destruct (flag.set (bname b) (bvalue b) (flag.cells f)) as [c'|] eqn:Hset.
    + apply Exists_cons in Hex as [Hb|Hex].
      * exfalso. destruct b as [n d sp v]. cbn [bname bvalue] in *.
        apply (set_None n v (flag.cells f)) in Hb. congruence.
      * destruct (IH (flag.assigned f (flag.nameText (bname b)) c') Hex)
          as (b' & Hin & Hm & ->).
        exists b'. split; [right; exact Hin|]. split; [exact Hm|reflexivity].
    + exists b. split; [left; reflexivity|]. split; [|reflexivity].
      destruct b as [n d sp v]. cbn [bname bvalue] in *.
      apply set_None in Hset. exact Hset.
Qed.

Lemma supplied_cons n b bs :
  is_Some (supplied n (b :: bs)) <-> n = bname b \/ is_Some (supplied n bs).
Proof.
  cbn [supplied]. destruct (supplied n bs) as [v|].
  - split; [right|]; eauto.
  - destruct n, (bname b); split; intros Hs;
      solve [ left; reflexivity | eexists; reflexivity
            | destruct Hs as [? Hs]; discriminate Hs
            | destruct Hs as [Hs|[? Hs]]; discriminate Hs ].
Qed.

(** The flags that the loop over the command line marks as set are those
    that an option supplies. *)
Lemma bindAll_actual bs f f' :
  bindAll bs f = inr f' ->
  forall n, flag.nameText n ∈ flag.actual f' <->
            flag.nameText n ∈ flag.actual f \/ is_Some (supplied n bs).
Proof.
  revert f. induction bs as [|b bs IH]; intros f Hb n.
  - injection Hb as <-. split; [left; assumption|].
    intros [?|[? Hs]]; [assumption|discriminate Hs].
  - cbn [bindAll] in Hb.
    destruct (flag.set (bname b) (bvalue b) (flag.cells f)) as [c'|]; [|discriminate].
    rewrite (IH _ Hb n), supplied_cons. cbn [flag.actual flag.assigned].
    rewrite elem_of_union, elem_of_singleton. split.
    + intros [[E|?]|?]; auto. right. left. exact (nameText_inj _ _ E).
    + intros [?|[->|?]]; auto.
Qed.

(** The pass over the environment gives every flag that is not yet set the
    value of its variable. *)
Lemma parseEnvFlags_layers env ns f val c0 :
  NoDup ns ->
  flag.cells f = resolveBy val c0 ->
  (forall n, flag.nameText n ∈ flag.actual f <-> is_Some (val n)) ->
  (forall n v, n ∈ ns -> val n = None -> env !! flag.envKey n = Some v -> parses n v) ->
  exists f' val',
    flag.parseEnvFlags env ns f = inr f' /\
    flag.cells f' = resolveBy val' c0 /\
    forall n, val' n =
      match val n with
      | Some v => Some v
      | None => if bool_decide (n ∈ ns) then env !! flag.envKey n else None
      end.
Proof.
  intros Hnd. revert f val.
  induction Hnd as [|n0 ns Hn0 Hnd IH]; intros f val Hc Hact Hok.
  - exists f, val. split; [reflexivity|]. split; [exact Hc|].
    intros n. destruct (val n); reflexivity.
  - cbn [flag.parseEnvFlags]. case_bool_decide as Hset.
    + (* already set by the command line *)
      destruct (proj1 (Hact n0) Hset) as [w Hw].
      destruct (IH f val Hc Hact) as (f' & val' & Hp & Hc' & Hv).
      { intros n v Hin. apply Hok. right. exact Hin. }
      exists f', val'. split; [exact Hp|]. split; [exact Hc'|].
      intros n. rewrite Hv. destruct (val n) as [x|] eqn:Hx; [reflexivity|].
      assert (n <> n0) by congruence.
      repeat case_bool_decide; try reflexivity;
        rewrite elem_of_cons in *; intuition congruence.
    + assert (Hnone : val n0 = None).
      { destruct (val n0) eqn:Hx; [|reflexivity]. exfalso. apply Hset, Hact. eauto. }
      destruct (env !! flag.envKey n0) as [v|] eqn:Hv0.
      * (* the variable is set *)
        rewrite Hc, (set_resolveBy n0 v val c0 Hnone)
          by (apply (Hok n0 v); [left|exact Hnone|exact Hv0]).
        destruct (IH (flag.assigned f (flag.nameText n0) (resolveBy (override val n0 v) c0))
                     (override val n0 v)) as (f' & val' & Hp & Hc' & Hv).
        { reflexivity. }
        { intros n. cbn [flag.actual flag.assigned].
          rewrite elem_of_union, elem_of_singleton, Hact. unfold override.
          case_decide as Hd; split; intros Hs; eauto.
          - left. subst. reflexivity.
          - destruct Hs as [E|Hs]; [|exact Hs].
            apply nameText_inj in E. contradiction. }
        { intros n w Hin Hn Hw. unfold override in Hn.
          case_decide; [discriminate|]. apply (Hok n w); auto. right. exact Hin. }
        exists f', val'. split; [exact Hp|]. split; [exact Hc'|].
        intros n. rewrite Hv. unfold override. case_decide as Hd.
        -- subst n. rewrite Hnone. rewrite bool_decide_true by left.
           symmetry. exact Hv0.
        -- destruct (val n); [reflexivity|].
           repeat case_bool_decide; try reflexivity;
        rewrite elem_of_cons in *; intuition congruence.
      * (* the variable is not set *)
        destruct (IH f val Hc Hact) as (f' & val' & Hp & Hc' & Hv).
        { intros n v Hin. apply Hok. right. exact Hin. }
        exists f', val'. split; [exact Hp|]. split; [exact Hc'|].
        intros n. rewrite Hv. destruct (val n) as [x|] eqn:Hx; [reflexivity|].
        repeat case_bool_decide; try reflexivity.
        -- rewrite elem_of_cons in *; intuition congruence.
        -- destruct (decide (n = n0)) as [->|]; [symmetry; exact Hv0|].
           rewrite elem_of_cons in *; intuition congruence.
Qed.

Lemma NoDup_allNames : NoDup flag.allNames.
Proof.
  unfold flag.allNames.
  repeat (apply NoDup_cons; split;
          [rewrite ?elem_of_cons, elem_of_nil; intuition discriminate|]).
  apply NoDup_nil_2.
Qed.

Lemma elem_of_allNames n : n ∈ flag.allNames.
Proof. unfold flag.allNames. rewrite !elem_of_cons. destruct n; tauto. Qed.

(** [init] on a command line of options whose values parse, with an
    environment whose values parse where they are used, and no
    configuration file. *)
Lemma init_layered c prog bs environ disk :
  Forall wellFormed bs -> envWellFormed environ bs ->
  default "" (layered environ bs flag.Config) = "" ->
  init c (prog :: flat_map render bs) environ disk =
  (InitReturn None,
   let v := resolveBy (layered environ bs) (flag.cells (NewFlagSet prog flag.ExitOnError)) in
   {| statusCode := flag.statusCode v;
      tick := flag.tick v;
      server := flag.server v;
      contentType := flag.contentType v;
      userAgent := flag.userAgent v;
      url := flag.url v |}).
Proof.
  intros Hwf Henv Hcfg. unfold init, flag.Parse.
  rewrite <- (app_nil_r (flat_map render bs)).
  rewrite parseArgs_bindings.
  destruct (bindAll_wellFormed bs (NewFlagSet prog flag.ExitOnError) Hwf)
    as (f' & Hb & Hc).
  rewrite Hb.
  cbn [flag.parseArgs flag.parseOne flag.args flag.withArgs length].
  unfold flag.ParseEnv.
  destruct (parseEnvFlags_layers (flag.envMap environ) flag.allNames
              (flag.withArgs f' []) (fun n => supplied n bs)
              (flag.cells (NewFlagSet prog flag.ExitOnError)) NoDup_allNames)
    as (f2 & val' & -> & Hc2 & Hv).
  { exact Hc. }
  { intros n. cbn [flag.actual flag.withArgs].
    rewrite (bindAll_actual bs _ f' Hb n). cbn [flag.actual NewFlagSet].
    split; [intros [Hin|?]; [|assumption]|right; assumption].
    apply not_elem_of_empty in Hin. contradiction. }
  { intros n v _. apply Henv. }
  assert (Hval : forall n, val' n = layered environ bs n).
  { intros n. rewrite Hv. unfold layered. destruct (supplied n bs); [reflexivity|].
    rewrite bool_decide_true by apply elem_of_allNames. reflexivity. }
  rewrite Hc2, (resolveBy_ext val' (layered environ bs) _ Hval).
  unfold resolveBy at 1. cbn [flag.configFile NewFlagSet flag.cells].
  rewrite Hcfg. cbn [String.eqb].
  rewrite Hc2, (resolveBy_ext val' (layered environ bs) _ Hval).
  reflexivity.
Qed.

(** [init] on a command line with an option whose value cannot be parsed. *)
Lemma init_malformed c prog bs rest environ disk :
  Exists malformed bs ->
  exists b, In b bs /\ malformed b /\
    init c (prog :: flat_map render bs ++ rest) environ disk =
    (InitExit 2
       (flag.ErrInvalidValue flag.FromArgs (bvalue b) (flag.nameText (bname b))),
     c).
Proof.
  intros Hex.
  destruct (bindAll_malformed bs (NewFlagSet prog flag.ExitOnError) Hex)
    as (b & Hin & Hm & Hb).
  exists b. split; [exact Hin|]. split; [exact Hm|].
  unfold init, flag.Parse. rewrite parseArgs_bindings, Hb. reflexivity.
Qed.

(** With [flag.ExitOnError], [init] never returns an error: it returns nil
    with the configuration assigned, or the process exits with status 2
    and the configuration untouched. *)
Lemma init_cases c prog rest environ disk :
  (exists c', init c (prog :: rest) environ disk = (InitReturn None, c')) \/
  (exists e, init c (prog :: rest) environ disk = (InitExit 2 e, c)).
Proof.
  unfold init, flag.Parse, flag.fail. cbn [flag.errorHandling NewFlagSet].
  repeat case_match; simplify_eq; eauto.
Qed.

End Init.

(** ** Properties of the loop *)

Section Loop.
Context `{GoText}.

Lemma since_app m m' es : effects m' = effects m ++ es -> since m m' = es.
Proof. unfold since. intros ->. apply drop_app_length. Qed.

Lemma rounds_app p m evs evs' :
  rounds p m (evs ++ evs') =
  match rounds p m evs with
  | Some m' => rounds p m' evs'
  | None => None
  end.
Proof.
  revert m. induction evs as [|[disk ev] evs IH]; intros m; [reflexivity|].
  cbn. destruct (step p disk m ev); [apply IH|reflexivity].
Qed.

(** Once the loop has ended, nothing is received any more. *)
Lemma step_ended p disk m ev : status m <> Running -> step p disk m ev = None.
Proof. unfold step. destruct (status m); congruence. Qed.

Lemma rounds_ended p m evs :
  status m <> Running -> evs <> [] -> rounds p m evs = None.
Proof.
  intros Hm Hevs. destruct evs as [|[disk ev] evs]; [congruence|].
  cbn. rewrite step_ended by exact Hm. reflexivity.
Qed.

(** The effects of a probe cycle whose request succeeded. *)
Lemma probe_ok p m resp :
  probe p m (GetOk resp) =
  {| cfg := cfg m;
     effects :=
       effects m ++
       Get (url (cfg m)) :: Log (PidLine (Pid p)) ::
       map Log
         (when (StatusCode resp <> statusCode (cfg m))
            (StatusMismatch (StatusCode resp)) ++
          when (HeaderGet (Header resp) "server" <> server (cfg m))
            (ServerMismatch (HeaderGet (Header resp) "server")) ++
          when (HeaderGet (Header resp) "content-type" <> contentType (cfg m))
            (ContentTypeMismatch (HeaderGet (Header resp) "content-type")) ++
          when (HeaderGet (Header resp) "user-agent" <> userAgent (cfg m))
            (UserAgentMismatch (HeaderGet (Header resp) "user-agent")));
     status := status m |}.
Proof.
  unfold probe, when.
  destruct (Z.eqb_spec (StatusCode resp) (statusCode (cfg m)));
  destruct (String.eqb_spec (HeaderGet (Header resp) "server") (server (cfg m)));
  destruct (String.eqb_spec (HeaderGet (Header resp) "content-type") (contentType (cfg m)));
  destruct (String.eqb_spec (HeaderGet (Header resp) "user-agent") (userAgent (cfg m)));
  repeat case_decide; try contradiction;
  unfold emit; cbn [cfg effects status negb map app];
  rewrite <- ?app_assoc; reflexivity.
Qed.

Lemma probes_map_Log ls : probes (map Log ls) = 0%nat.
Proof. induction ls as [|l ls IH]; [reflexivity|exact IH]. Qed.

Lemma probes_cycle u l ls : probes (Get u :: Log l :: map Log ls) = 1%nat.
Proof. exact (f_equal S (probes_map_Log ls)). Qed.

Lemma logged_map_Log ls : logged (map Log ls) = ls.
Proof. induction ls as [|l ls IH]; [reflexivity|]. cbn. f_equal. exact IH. Qed.

End Loop.

(** ** The claims *)

(** Rewrites [since m m'] when the effects of [m'] extend those of [m]. *)
Ltac effects_since :=
  erewrite since_app;
  [|unfold cancel, halt, emit; cbn [effects]; rewrite <- ?app_assoc; reflexivity].

Section Claims.
Context `{GoText}.

(** C8. For a command line of options whose values parse, with an
    environment whose values parse and no configuration file, [init] returns
    nil and every field of the configuration is the value supplied for its
    option (by the command line, else by the variable of the flag), or the
    default of lines 33-38 when the option is omitted: status 200, tick 60
    seconds, and the empty string for the four texts. *)
Theorem load_valid_arguments c prog bs environ disk :
  Forall wellFormed bs -> envWellFormed environ bs ->
  default "" (layered environ bs flag.Config) = "" ->
  init c (prog :: flat_map render bs) environ disk =
  (InitReturn None,
   {| contentType := default "" (layered environ bs flag.ContentType);
      server := default "" (layered environ bs flag.Server);
      statusCode := default 200 (layered environ bs flag.Status ≫= ParseInt);
      tick := default (60 * Second) (layered environ bs flag.Tick ≫= ParseDuration);
      url := default "" (layered environ bs flag.Url);
      userAgent := default "" (layered environ bs flag.UserAgent) |}).
Proof.
  intros Hwf Henv Hcfg. rewrite init_layered by assumption. reflexivity.
Qed.

(** C7, as the code has it. A tick option that parses as a duration that is
    not positive is accepted like any other duration: [init] returns nil and
    the interval of the configuration is that duration. *)
Theorem load_keeps_nonpositive_tick c prog bs environ disk v d :
  Forall wellFormed bs -> envWellFormed environ bs ->
  default "" (layered environ bs flag.Config) = "" ->
  supplied flag.Tick bs = Some v -> ParseDuration v = Some d -> d <= 0 ->
  exists c', init c (prog :: flat_map render bs) environ disk = (InitReturn None, c')
    /\ tick c' = d /\ tick c' <= 0.
Proof.
  intros Hwf Henv Hcfg Hv Hd Hle. eexists. split.
  - apply init_layered; assumption.
  - cbn [tick resolveBy flag.tick]. unfold layered. rewrite Hv. cbn. rewrite Hd. cbn.
    split; [reflexivity|exact Hle].
Qed.

(** C6. When an option of the command line has a value that its flag cannot
    parse, [init] does not return: the flag set reports the invalid value on
    standard error and the process exits with status 2.  The configuration
    is left as it was, [run] logs nothing, and no event is ever received. *)
Theorem load_malformed_value p prog bs rest disk :
  Exists malformed bs -> Args p = prog :: flat_map render bs ++ rest ->
  exists b, In b bs /\ malformed b /\
    let e := flag.ErrInvalidValue flag.FromArgs (bvalue b) (flag.nameText (bname b)) in
    forall c,
      init c (Args p) (Environ p) disk = (InitExit 2 e, c) /\
      start p disk c =
        {| cfg := c;
           effects := [Load (Args p); Stderr (ConfigError e)];
           status := Exited 2 |} /\
      (forall disk' ev, step p disk' (start p disk c) ev = None) /\
      main p disk [] = Some (start p disk zeroConfig).
Proof.
  intros Hex Hargs.
  destruct (bindAll_malformed bs (NewFlagSet prog flag.ExitOnError) Hex)
    as (b & Hin & Hm & Hb).
  exists b. split; [exact Hin|]. split; [exact Hm|]. intros e.
  assert (Hinit : forall c, init c (Args p) (Environ p) disk = (InitExit 2 e, c)).
  { intros c. rewrite Hargs. unfold init, flag.Parse.
    rewrite parseArgs_bindings, Hb. reflexivity. }
  assert (Hstart : forall c, start p disk c =
     {| cfg := c; effects := [Load (Args p); Stderr (ConfigError e)]; status := Exited 2 |}).
  { intros c. unfold start, load. cbn [cfg]. rewrite Hinit. reflexivity. }
  intros c. split; [apply Hinit|]. split; [apply Hstart|]. split.
  - intros disk' ev. rewrite Hstart. reflexivity.
  - unfold main, run. cbn [rounds]. rewrite !Hstart. reflexivity.
Qed.

(** C1, as the code has it. A hang-up received in the loop calls [init]
    once.  When [init] returns, the loop goes on with the configuration it
    loaded and a later tick probes its url; when the flag set rejects the
    configuration, the process exits with status 2. *)
Theorem hangup_reloads p disk m :
  status m = Running -> Args p <> [] ->
  exists m', step p disk m (Signalled SIGHUP) = Some m' /\
    loads (since m m') = 1%nat /\
    ((exists c', init (cfg m) (Args p) (Environ p) disk = (InitReturn None, c') /\
        status m' = Running /\ cfg m' = c' /\
        forall disk' r, 0 < tick c' ->
          exists m'', step p disk' m' (Ticked r) = Some m'' /\
            probes (since m' m'') = 1%nat /\ In (Get (url c')) (since m' m''))
     \/
     (exists e, init (cfg m) (Args p) (Environ p) disk = (InitExit 2 e, cfg m) /\
        status m' = Exited 2 /\ cfg m' = cfg m)).
Proof.
  intros Hrun Hargs. destruct (Args p) as [|prog rest] eqn:Ha; [congruence|].
  unfold step. rewrite Hrun. eexists. split; [reflexivity|].
  unfold load. cbn [cfg emit]. rewrite Ha.
  destruct (init_cases (cfg m) prog rest (Environ p) disk) as [[c' Hi]|[e Hi]];
    rewrite Hi.
  - split.
    { effects_since. reflexivity. }
    left. exists c'. split; [reflexivity|].
    split; [exact Hrun|]. split; [reflexivity|].
    intros disk' r Hpos. unfold step, emit. cbn [status cfg]. rewrite Hrun.
    apply Z.ltb_lt in Hpos. rewrite Hpos. eexists. split; [reflexivity|].
    destruct r as [resp|err].
    + rewrite probe_ok. effects_since.
      split; [|left; reflexivity].
      apply probes_cycle.
    + unfold probe. effects_since.
      split; [reflexivity|left; reflexivity].
  - split.
    { destruct (flag.printed e); effects_since; reflexivity. }
    right. exists e. split; [reflexivity|].
    destruct (flag.printed e); split; reflexivity.
Qed.

(** C2. A probe whose request fails at the transport level ends the loop:
    [run] returns the error, [main] writes it to standard error and exits
    with status 1, and no event, so no tick, is received after it. *)
Theorem transport_failure_is_fatal p disk0 evs m disk err :
  run p disk0 zeroConfig evs = Some m -> status m = Running -> 0 < tick (cfg m) ->
  let failing := (disk, Ticked (GetErr err)) in
  run p disk0 zeroConfig (evs ++ [failing]) =
    Some {| cfg := cfg m;
            effects := effects m ++ [Get (url (cfg m))];
            status := Returned (Some (TransportError err)) |} /\
  main p disk0 (evs ++ [failing]) =
    Some {| cfg := cfg m;
            effects := effects m ++ [Get (url (cfg m)); Stderr (TransportError err)];
            status := Exited 1 |} /\
  forall more, more <> [] ->
    run p disk0 zeroConfig (evs ++ failing :: more) = None /\
    main p disk0 (evs ++ failing :: more) = None.
Proof.
  intros Hevs Hrun Hpos failing. unfold main, run in *.
  assert (Hstep : step p disk m (Ticked (GetErr err)) =
    Some {| cfg := cfg m; effects := effects m ++ [Get (url (cfg m))];
            status := Returned (Some (TransportError err)) |}).
  { unfold step. rewrite Hrun. apply Z.ltb_lt in Hpos. rewrite Hpos. reflexivity. }
  rewrite !rounds_app, !Hevs. subst failing. cbn [rounds]. rewrite Hstep.
  split; [reflexivity|]. split.
  - unfold halt, emit. cbn [status effects cfg]. rewrite <- app_assoc. reflexivity.
  - intros more Hmore. rewrite rounds_app, Hevs. cbn [rounds]. rewrite Hstep.
    rewrite rounds_ended; [split; reflexivity|cbn; congruence|exact Hmore].
Qed.

(** C3. After the pid line, a probe cycle logs one line for each of the
    four checks whose observed value differs from the expected one, in the
    order status, server, content-type, user-agent, and nothing else; no
    check depends on another.  The response of the example gives three
    lines against the differing expectations and none against the matching
    ones. *)
Theorem checks_are_independent p c es st resp u t :
  let m := {| cfg := c; effects := es; status := st |} in
  mismatches p m resp =
    when (StatusCode resp <> statusCode c) (StatusMismatch (StatusCode resp)) ++
    when (HeaderGet (Header resp) "server" <> server c)
      (ServerMismatch (HeaderGet (Header resp) "server")) ++
    when (HeaderGet (Header resp) "content-type" <> contentType c)
      (ContentTypeMismatch (HeaderGet (Header resp) "content-type")) ++
    when (HeaderGet (Header resp) "user-agent" <> userAgent c)
      (UserAgentMismatch (HeaderGet (Header resp) "user-agent")) /\
  mismatches p
    {| cfg := expecting 404 "apache" "text/html" "x" u t; effects := es; status := st |}
    nginxResponse =
    [StatusMismatch 200; ServerMismatch "nginx"; UserAgentMismatch ""] /\
  mismatches p
    {| cfg := expecting 200 "nginx" "text/html" "" u t; effects := es; status := st |}
    nginxResponse = [].
Proof.
  assert (Hm : forall m, mismatches p m resp =
    List.filter isMismatch
      (when (StatusCode resp <> statusCode (cfg m)) (StatusMismatch (StatusCode resp)) ++
       when (HeaderGet (Header resp) "server" <> server (cfg m))
         (ServerMismatch (HeaderGet (Header resp) "server")) ++
       when (HeaderGet (Header resp) "content-type" <> contentType (cfg m))
         (ContentTypeMismatch (HeaderGet (Header resp) "content-type")) ++
       when (HeaderGet (Header resp) "user-agent" <> userAgent (cfg m))
         (UserAgentMismatch (HeaderGet (Header resp) "user-agent")))).
  { intros m. unfold mismatches. rewrite probe_ok. effects_since.
    change (logged (Get ?a :: Log ?l :: ?r)) with (l :: logged r).
    rewrite logged_map_Log. reflexivity. }
  intros m. split; [|split].
  - rewrite Hm. subst m. cbn [cfg]. unfold when.
    repeat case_decide; reflexivity.
  - unfold mismatches. rewrite probe_ok. effects_since.
    change (logged (Get ?a :: Log ?l :: ?r)) with (l :: logged r).
    rewrite logged_map_Log. vm_compute. reflexivity.
  - unfold mismatches. rewrite probe_ok. effects_since.
    change (logged (Get ?a :: Log ?l :: ?r)) with (l :: logged r).
    rewrite logged_map_Log. vm_compute. reflexivity.
Qed.

(** C4. A SIGINT or SIGTERM received in the loop, whatever the
    configuration and whatever happened before, logs that it is exiting and
    dying, sleeps two seconds, logs that it is dead and exits with
    status 1. *)
Theorem terminate_signal_shuts_down p disk0 evs m disk s :
  run p disk0 zeroConfig evs = Some m -> status m = Running ->
  s = SIGINT \/ s = SIGTERM ->
  main p disk0 (evs ++ [(disk, Signalled s)]) =
    Some {| cfg := cfg m;
            effects := effects m ++ [Log GotTerm; Log Dying; Sleep (2 * Second); Log Dead];
            status := Exited 1 |}.
Proof.
  intros Hevs Hrun Hs. unfold main, run in *. rewrite rounds_app, Hevs.
  cbn [rounds]. unfold step. rewrite Hrun.
  destruct Hs as [-> | ->]; unfold cancel, halt, emit; cbn [status effects cfg];
    rewrite <- app_assoc; reflexivity.
Qed.

(** C5. When the loop receives the cancellation of its context, [run]
    returns nil with no further effect and [main] ends with status 0; a
    SIGINT or SIGTERM in the same place sleeps and exits with status 1. *)
Theorem cancellation_returns_cleanly p disk0 evs m disk :
  run p disk0 zeroConfig evs = Some m -> status m = Running ->
  run p disk0 zeroConfig (evs ++ [(disk, Cancelled)]) =
    Some {| cfg := cfg m; effects := effects m; status := Returned None |} /\
  main p disk0 (evs ++ [(disk, Cancelled)]) =
    Some {| cfg := cfg m; effects := effects m; status := Exited 0 |} /\
  forall s, s = SIGINT \/ s = SIGTERM ->
    exists m1, main p disk0 (evs ++ [(disk, Signalled s)]) = Some m1 /\
      status m1 = Exited 1 /\ In (Sleep (2 * Second)) (since m m1).
Proof.
  intros Hevs Hrun. unfold main, run in *. rewrite !rounds_app, !Hevs.
  cbn [rounds]. unfold step. rewrite Hrun. split; [reflexivity|].
  split; [reflexivity|].
  intros s Hs. rewrite rounds_app, Hevs. cbn [rounds]. unfold step. rewrite Hrun.
  destruct Hs as [-> | ->]; (eexists; split; [reflexivity|]; split; [reflexivity|]);
    effects_since; cbn; tauto.
Qed.

(** C9. The user-agent that a probe cycle compares is the first value under
    [User-Agent] in the headers of the response, or the empty string; the
    mismatch line is logged exactly when it is not the expected one, and it
    carries that value. *)
Theorem user_agent_is_the_response_header p m resp ua :
  HeaderGet (Header resp) "user-agent" =
    match Header resp !! "User-Agent" with
    | Some (v :: _) => v
    | _ => ""
    end /\
  (In (Log (UserAgentMismatch ua)) (since m (probe p m (GetOk resp))) <->
   ua = HeaderGet (Header resp) "user-agent" /\ ua <> userAgent (cfg m)).
Proof.
  split; [reflexivity|].
  rewrite probe_ok. effects_since. unfold when.
  repeat case_decide; cbn; intuition congruence.
Qed.

(** C10. A probe cycle whose request succeeds logs the pid line first,
    once, before any mismatch line; the other lines of the cycle are
    mismatch lines, and there are none exactly when the four observed values
    are the expected ones. *)
Theorem pid_line_every_cycle p m resp :
  exists rest,
    since m (probe p m (GetOk resp)) =
      Get (url (cfg m)) :: Log (PidLine (Pid p)) :: map Log rest /\
    logged (since m (probe p m (GetOk resp))) = PidLine (Pid p) :: rest /\
    forallb isMismatch rest = true /\
    (rest = [] <->
     StatusCode resp = statusCode (cfg m) /\
     HeaderGet (Header resp) "server" = server (cfg m) /\
     HeaderGet (Header resp) "content-type" = contentType (cfg m) /\
     HeaderGet (Header resp) "user-agent" = userAgent (cfg m)).
Proof.
  rewrite probe_ok. effects_since. eexists. split; [reflexivity|].
  change (logged (Get ?a :: Log ?l :: ?r)) with (l :: logged r).
  rewrite logged_map_Log. split; [reflexivity|].
  unfold when. repeat case_decide; cbn; (split; [reflexivity|]);
    split; intros; try discriminate; tauto.
Qed.

End Claims.

(** ** Further properties of [main.go] *)

(** Closes the conjunction that describes the effects of one round. *)
Ltac round_facts :=
  repeat split; try reflexivity;
  try (let E := fresh in intros E; first [discriminate E | reflexivity]).

Section Runs.
Context `{GoText}.

(** What one round adds to the effects, by event. *)
Lemma step_effects p disk m ev m' :
  step p disk m ev = Some m' ->
  exists es, effects m' = effects m ++ es /\
    requested es = (if isTick ev then [url (cfg m)] else []) /\
    loads es = (if isHangup ev then 1 else 0)%nat /\
    starts (logged es) = 0%nat /\
    (isHangup ev = false -> cfg m' = cfg m).
Proof.
  unfold step. destruct (status m); try discriminate.
  destruct ev as [[| |]| |r].
  - intros [= <-]. eexists. split.
    { unfold cancel, halt, emit. cbn [effects]. rewrite <- app_assoc. reflexivity. }
    round_facts.
  - intros [= <-]. eexists. split.
    { unfold cancel, halt, emit. cbn [effects]. rewrite <- app_assoc. reflexivity. }
    round_facts.
  - intros [= <-]. unfold load.
    destruct (init _ _ _ _) as [[e|code e|] c'].
    + eexists. split.
      { unfold emit. cbn [effects]. rewrite <- app_assoc. reflexivity. }
      round_facts.
    + destruct (flag.printed e); (eexists; split;
        [unfold emit; cbn [effects]; rewrite <- ?app_assoc; reflexivity|round_facts]).
    + eexists. split.
      { unfold emit. cbn [effects]. rewrite <- app_assoc. reflexivity. }
      round_facts.
  - intros [= <-]. exists []. rewrite app_nil_r. round_facts.
  - destruct (0 <? tick (cfg m)); [|discriminate]. intros [= <-].
    destruct r as [resp|err].
    + rewrite probe_ok. eexists. split; [reflexivity|].
      split; [|split; [|split; [|intros _; reflexivity]]].
      * change (requested (Get ?a :: Log ?l :: ?r)) with (a :: requested r).
        f_equal. generalize (when (StatusCode resp <> statusCode (cfg m)) (StatusMismatch (StatusCode resp)) ++
          when (HeaderGet (Header resp) "server" <> server (cfg m))
            (ServerMismatch (HeaderGet (Header resp) "server")) ++
          when (HeaderGet (Header resp) "content-type" <> contentType (cfg m))
            (ContentTypeMismatch (HeaderGet (Header resp) "content-type")) ++
          when (HeaderGet (Header resp) "user-agent" <> userAgent (cfg m))
            (UserAgentMismatch (HeaderGet (Header resp) "user-agent"))).
        intros ls. induction ls as [|l ls IH]; [reflexivity|exact IH].
      * generalize (when (StatusCode resp <> statusCode (cfg m)) (StatusMismatch (StatusCode resp)) ++
          when (HeaderGet (Header resp) "server" <> server (cfg m))
            (ServerMismatch (HeaderGet (Header resp) "server")) ++
          when (HeaderGet (Header resp) "content-type" <> contentType (cfg m))
            (ContentTypeMismatch (HeaderGet (Header resp) "content-type")) ++
          when (HeaderGet (Header resp) "user-agent" <> userAgent (cfg m))
            (UserAgentMismatch (HeaderGet (Header resp) "user-agent"))).
        intros ls. induction ls as [|l ls IH]; [reflexivity|exact IH].
      * change (logged (Get ?a :: Log ?l :: ?r)) with (l :: logged r).
        rewrite logged_map_Log. unfold when.
        repeat case_decide; reflexivity.
    + eexists. split; [reflexivity|]. round_facts.
Qed.

Lemma requested_app a b : requested (a ++ b) = requested a ++ requested b.
Proof. apply flat_map_app. Qed.

Lemma loads_app a b : loads (a ++ b) = (loads a + loads b)%nat.
Proof. unfold loads. rewrite List.filter_app, length_app. reflexivity. Qed.

Lemma logged_app a b : logged (a ++ b) = logged a ++ logged b.
Proof. apply flat_map_app. Qed.

Lemma starts_app a b : starts (a ++ b) = (starts a + starts b)%nat.
Proof. unfold starts. rewrite List.filter_app, length_app. reflexivity. Qed.

Lemma probes_requested es : probes es = length (requested es).
Proof.
  induction es as [|e es IH]; [reflexivity|].
  destruct e; cbn; try exact IH. f_equal. exact IH.
Qed.

(** What a run of the loop adds to the effects. *)
Lemma rounds_effects p m evs m' :
  rounds p m evs = Some m' ->
  exists es, effects m' = effects m ++ es /\
    length (requested es) = ticks evs /\
    loads es = hangups evs /\
    starts (logged es) = 0%nat /\
    (hangups evs = 0%nat -> cfg m' = cfg m /\
       requested es = repeat (url (cfg m)) (ticks evs)).
Proof.
  revert m. induction evs as [|[disk ev] evs IH]; intros m.
  - intros [= <-]. exists []. rewrite app_nil_r. repeat split.
  - cbn [rounds]. destruct (step p disk m ev) as [m1|] eqn:Hs; [|discriminate].
    intros Hr. destruct (step_effects _ _ _ _ _ Hs) as (e1 & He1 & Hq1 & Hl1 & Hs1 & Hc1).
    destruct (IH _ Hr) as (e2 & He2 & Hq2 & Hl2 & Hs2 & Hc2).
    exists (e1 ++ e2). split; [rewrite He2, He1, app_assoc; reflexivity|].
    rewrite requested_app, length_app, loads_app, logged_app, starts_app.
    unfold ticks, hangups in *. cbn [List.filter snd].
    rewrite Hq1, Hq2, Hl1, Hl2, Hs1, Hs2.
    split; [destruct (isTick ev); reflexivity|].
    split; [destruct (isHangup ev); reflexivity|].
    split; [reflexivity|].
    destruct (isHangup ev) eqn:Hh; [discriminate|]. cbn [length].
    intros Hz. destruct (Hc2 Hz) as [Hcfg Hreq].
    rewrite Hcfg, Hreq, (Hc1 eq_refl). split; [reflexivity|].
    destruct (isTick ev); reflexivity.
Qed.


(** X11. One GET per tick and none otherwise. *)
Theorem one_get_per_tick p m evs m' :
  rounds p m evs = Some m' -> probes (since m m') = ticks evs.
Proof.
  intros Hr. destruct (rounds_effects _ _ _ _ Hr) as (es & He & Hq & _).
  rewrite (since_app _ _ _ He), probes_requested. exact Hq.
Qed.

(** X12. [init] is called once before the loop and once per hang-up. *)
Theorem one_load_per_hangup p disk c evs m :
  run p disk c evs = Some m -> loads (effects m) = S (hangups evs).
Proof.
  unfold run. intros Hr.
  destruct (rounds_effects _ _ _ _ Hr) as (es & He & _ & Hl & _).
  rewrite He, loads_app, Hl. f_equal.
  unfold start, load. cbn [cfg effects emit status app].
  destruct (init c (Args p) (Environ p) disk) as [[e|code e|] c']; cbn [status];
    try destruct (flag.printed e); reflexivity.
Qed.

(** X13. Without a hang-up the configuration stays as it is, and every tick
    requests the same url. *)
Theorem config_changes_only_on_hangup p m evs m' :
  rounds p m evs = Some m' -> hangups evs = 0%nat ->
  cfg m' = cfg m /\ requested (since m m') = repeat (url (cfg m)) (ticks evs).
Proof.
  intros Hr Hz. destruct (rounds_effects _ _ _ _ Hr) as (es & He & _ & _ & _ & Hc).
  rewrite (since_app _ _ _ He). exact (Hc Hz).
Qed.

(** [init] does not look at the configuration it is called on. *)
Lemma init_independent c1 c2 args environ disk :
  match init c1 args environ disk with
  | (InitReturn None, c') => init c2 args environ disk = (InitReturn None, c')
  | (o, c') => c' = c1 /\ init c2 args environ disk = (o, c2)
  end.
Proof.
  unfold init. destruct args as [|prog rest]; [split; reflexivity|].
  destruct (flag.Parse _ _ _ _) as [[e|] f|code e|e];
    first [reflexivity | split; reflexivity].
Qed.

(** How a call of [init] by [run] can end. *)
Lemma init_outcomes c args environ disk :
  (args = [] /\ init c args environ disk = (InitPanic, c)) \/
  (exists c', init c args environ disk = (InitReturn None, c')) \/
  (exists e, init c args environ disk = (InitExit 2 e, c)).
Proof.
  destruct args as [|prog rest]; [left; split; reflexivity|right].
  apply init_cases.
Qed.

(** The state in which [run] enters the loop, or ends before it. *)
Lemma start_outcomes p disk c :
  (exists c', init c (Args p) (Environ p) disk = (InitReturn None, c') /\
     start p disk c =
       {| cfg := c';
          effects := [Load (Args p); Log (Starting (tick c') (Pid p))];
          status := Running |}) \/
  (status (start p disk c) = Exited 2 /\ cfg (start p disk c) = c /\
     logged (effects (start p disk c)) = []) \/
  (Args p = [] /\ status (start p disk c) = Panicked /\
     logged (effects (start p disk c)) = []).
Proof.
  unfold start, load. cbn [cfg].
  destruct (init_outcomes c (Args p) (Environ p) disk)
    as [[Ha Hi]|[[c' Hi]|[e Hi]]]; rewrite Hi.
  - right. right. split; [exact Ha|]. split; reflexivity.
  - left. exists c'. split; reflexivity.
  - right. left. destruct (flag.printed e); repeat split.
Qed.

(** X2. A successful [init] assigns every field from its inputs alone, and a
    failing one assigns none: the result is the whole new configuration or
    the old one untouched, never a mix. *)
Theorem load_is_all_or_nothing c1 c2 args environ disk :
  (exists c', init c1 args environ disk = (InitReturn None, c') /\
              init c2 args environ disk = (InitReturn None, c')) \/
  (exists o, o <> InitReturn None /\
             init c1 args environ disk = (o, c1) /\
             init c2 args environ disk = (o, c2)).
Proof.
  pose proof (init_independent c1 c2 args environ disk) as Hi.
  destruct (init c1 args environ disk) as [[[e|]|code e|] c'].
  - destruct Hi as [-> Hi]. right. exists (InitReturn (Some e)).
    split; [discriminate|]. split; [reflexivity|exact Hi].
  - left. exists c'. split; [reflexivity|exact Hi].
  - destruct Hi as [-> Hi]. right. exists (InitExit code e).
    split; [discriminate|]. split; [reflexivity|exact Hi].
  - destruct Hi as [-> Hi]. right. exists InitPanic.
    split; [discriminate|]. split; [reflexivity|exact Hi].
Qed.

(** X1. [init] never returns an error.  With [flag.ExitOnError] the
    branch of lines 41-43 is dead: the call returns nil, or the process
    exits with status 2, or [args[0]] panics on an empty argument list. *)
Theorem load_never_returns_an_error c args environ disk :
  (forall e c', init c args environ disk <> (InitReturn (Some e), c')) /\
  (forall code e c', init c args environ disk = (InitExit code e, c') -> code = 2) /\
  (forall c', init c args environ disk = (InitPanic, c') <-> args = [] /\ c' = c).
Proof.
  destruct (init_outcomes c args environ disk) as [[-> Hi]|[[c0 Hi]|[e0 Hi]]];
    rewrite Hi; (split; [|split]); intros; try congruence.
  - split; [intros [= <-]; split; reflexivity|intros [_ ->]; reflexivity].
  - split; [discriminate|]. intros [-> _]. discriminate Hi.
  - split; [discriminate|]. intros [-> _]. discriminate Hi.
Qed.

(** X14. A hang-up that finds the inputs of the start unchanged leaves the
    configuration as it is and the loop running. *)
Theorem reload_of_unchanged_inputs p disk c evs m :
  run p disk c evs = Some m -> hangups evs = 0%nat -> status m = Running ->
  exists m', step p disk m (Signalled SIGHUP) = Some m' /\
    status m' = Running /\ cfg m' = cfg m /\
    logged (since m m') = [GotHup].
Proof.
  unfold run. intros Hr Hz Hrun.
  destruct (rounds_effects _ _ _ _ Hr) as (es & _ & _ & _ & _ & Hc).
  destruct (Hc Hz) as [Hcfg _].
  destruct (start_outcomes p disk c) as [(c' & Hi & Hs)|[(Hs & _)|(_ & Hs & _)]].
  - rewrite Hs in Hcfg. cbn [cfg] in Hcfg.
    pose proof (init_independent c (cfg m) (Args p) (Environ p) disk) as Hind.
    rewrite Hi in Hind.
    unfold step. rewrite Hrun. eexists. split; [reflexivity|].
    unfold load. cbn [cfg emit]. rewrite Hind. cbn [status cfg].
    split; [exact Hrun|]. split; [symmetry; exact Hcfg|].
    effects_since. reflexivity.
  - destruct evs as [|[d e] evs]; cbn [rounds] in Hr.
    + injection Hr as <-. congruence.
    + rewrite step_ended in Hr by congruence. discriminate.
  - destruct evs as [|[d e] evs]; cbn [rounds] in Hr.
    + injection Hr as <-. congruence.
    + rewrite step_ended in Hr by congruence. discriminate.
Qed.

(** X9. The start line is the first line of the log, it carries the interval
    that [init] loaded and the pid, and no later round writes another one.
    When [init] ends the process nothing is logged at all. *)
Theorem one_start_line p disk c evs m :
  run p disk c evs = Some m ->
  (exists c' rest,
     init c (Args p) (Environ p) disk = (InitReturn None, c') /\
     logged (effects m) = Starting (tick c') (Pid p) :: rest /\
     starts rest = 0%nat) \/
  (evs = [] /\ status m <> Running /\ logged (effects m) = []).
Proof.
  unfold run. intros Hr.
  destruct (start_outcomes p disk c) as [(c' & Hi & Hs)|[(Hs & _ & Hl)|(_ & Hs & Hl)]].
  - left. destruct (rounds_effects _ _ _ _ Hr) as (es & He & _ & _ & Hst & _).
    exists c', (logged es). split; [exact Hi|].
    rewrite He, Hs, logged_app. split; [reflexivity|exact Hst].
  - right. destruct evs as [|[d e] evs]; cbn [rounds] in Hr.
    + injection Hr as <-. split; [reflexivity|]. split; [congruence|exact Hl].
    + rewrite step_ended in Hr by congruence. discriminate.
  - right. destruct evs as [|[d e] evs]; cbn [rounds] in Hr.
    + injection Hr as <-. split; [reflexivity|]. split; [congruence|exact Hl].
    + rewrite step_ended in Hr by congruence. discriminate.
Qed.

(** X15. With an interval that is not positive the ticker never fires: until
    a hang-up changes the configuration, no event of a run is a tick and no
    request is made. *)
Theorem nonpositive_tick_never_probes p m evs m' :
  tick (cfg m) <= 0 -> hangups evs = 0%nat -> rounds p m evs = Some m' ->
  ticks evs = 0%nat /\ probes (since m m') = 0%nat.
Proof.
  intros Hle Hz Hr.
  assert (Ht : ticks evs = 0%nat).
  { revert m Hle Hz Hr. induction evs as [|[d e] evs IH]; intros m Hle Hz Hr;
      [reflexivity|].
    cbn [rounds] in Hr. destruct (step p d m e) as [m1|] eqn:Hs; [|discriminate].
    unfold hangups in Hz. cbn [List.filter snd] in Hz.
    destruct (isHangup e) eqn:Hh; [discriminate|].
    destruct (step_effects _ _ _ _ _ Hs) as (es & _ & _ & _ & _ & Hc).
    unfold ticks. cbn [List.filter snd].
    destruct e as [sg| |r]; cbn [isTick].
    - apply (IH m1); [rewrite (Hc Hh); exact Hle|exact Hz|exact Hr].
    - apply (IH m1); [rewrite (Hc Hh); exact Hle|exact Hz|exact Hr].
    - unfold step in Hs. destruct (status m); try discriminate.
      apply Z.ltb_ge in Hle. rewrite Hle in Hs. discriminate. }
  split; [exact Ht|].
  destruct (rounds_effects _ _ _ _ Hr) as (es & He & Hq & _).
  rewrite (since_app _ _ _ He), probes_requested, Hq. exact Ht.
Qed.

(** X16. Mismatches are not errors: whatever the responses, a run of ticks
    whose requests all succeed is handled to the end, and the loop is still
    running with the same configuration. *)
Theorem mismatches_are_not_fatal p m (rs : list (flag.FileSystem * Response)) :
  status m = Running -> 0 < tick (cfg m) ->
  exists m',
    rounds p m (map (fun dr => (fst dr, Ticked (GetOk (snd dr)))) rs) = Some m' /\
    status m' = Running /\ cfg m' = cfg m /\
    probes (since m m') = length rs.
Proof.
  intros Hrun Hpos.
  assert (Hex : exists m',
    rounds p m (map (fun dr => (fst dr, Ticked (GetOk (snd dr)))) rs) = Some m' /\
    status m' = Running /\ cfg m' = cfg m).
  { revert m Hrun Hpos. induction rs as [|[d r] rs IH]; intros m Hrun Hpos.
    - exists m. repeat split. exact Hrun.
    - cbn [map rounds fst snd]. unfold step. rewrite Hrun.
      pose proof Hpos as Hb. apply Z.ltb_lt in Hb. rewrite Hb.
      destruct (IH (probe p m (GetOk r))) as (m' & Hr & Hs & Hc).
      + rewrite probe_ok. exact Hrun.
      + rewrite probe_ok. exact Hpos.
      + exists m'. split; [exact Hr|]. split; [exact Hs|].
        rewrite Hc, probe_ok. reflexivity. }
  destruct Hex as (m' & Hr & Hs & Hc). exists m'.
  split; [exact Hr|]. split; [exact Hs|]. split; [exact Hc|].
  destruct (rounds_effects _ _ _ _ Hr) as (es & He & Hq & _).
  rewrite (since_app _ _ _ He), probes_requested, Hq.
  unfold ticks. clear. induction rs as [|[d r] rs IH]; [reflexivity|].
  cbn. f_equal. exact IH.
Qed.

End Runs.

Section Exit.
Context `{GoText}.

(** A run that handled its events was in the loop before the last one. *)
Lemma rounds_last p m evs m' :
  rounds p m evs = Some m' ->
  (evs = [] /\ m' = m) \/
  (exists pre d e m1, evs = pre ++ [(d, e)] /\ rounds p m pre = Some m1 /\
     status m1 = Running /\ step p d m1 e = Some m').
Proof.
  destruct evs as [|[d e] evs _] using rev_ind.
  - intros [= <-]. left. split; reflexivity.
  - rewrite rounds_app. destruct (rounds p m evs) as [m1|] eqn:Hpre; [|discriminate].
    cbn [rounds]. destruct (step p d m1 e) as [m2|] eqn:Hs; [|discriminate].
    intros [= <-]. right. exists evs, d, e, m1.
    split; [reflexivity|]. split; [exact Hpre|]. split; [|exact Hs].
    destruct (status m1) eqn:Hst; [reflexivity| | |];
      (rewrite step_ended in Hs; [discriminate|rewrite Hst; discriminate]).
Qed.

(** The status after one round, by event. *)
Lemma step_status p disk m ev m' :
  step p disk m ev = Some m' ->
  match ev with
  | Signalled SIGHUP =>
      status m' = Running \/ status m' = Exited 2 \/
      (status m' = Panicked /\ Args p = [])
  | Signalled _ => status m' = Exited 1
  | Cancelled => status m' = Returned None
  | Ticked (GetOk _) => status m' = Running
  | Ticked (GetErr err) => status m' = Returned (Some (TransportError err))
  end.
Proof.
  unfold step. destruct (status m) eqn:Hst; try discriminate.
  destruct ev as [[| |]| |[resp|err]]; try (intros [= <-]; reflexivity).
  - intros [= <-]. unfold load. cbn [cfg emit].
    destruct (init_outcomes (cfg m) (Args p) (Environ p) disk)
      as [[Ha Hi]|[[c' Hi]|[e Hi]]]; rewrite Hi; cbn [status].
    + right. right. split; [reflexivity|exact Ha].
    + left. exact Hst.
    + right. left. destruct (flag.printed e); reflexivity.
  - destruct (0 <? tick (cfg m)); [|discriminate]. intros Hs.
    replace m' with (probe p m (GetOk resp)) by congruence.
    rewrite probe_ok. exact Hst.
  - destruct (0 <? tick (cfg m)); [|discriminate]. intros [= <-]. reflexivity.
Qed.

(** X17. The exit status of the process tells how it ended: 0 only after a
    cancellation, 1 only after SIGINT, SIGTERM or a failed request, 2 only
    when [init] rejected the configuration at the start or at a hang-up.
    [main] never ends in another status, and a panic needs an empty
    argument list. *)
Theorem exit_status_tells_the_cause p disk evs m :
  main p disk evs = Some m -> exitCause (Args p) evs (status m).
Proof.
  unfold exitCause, main, run.
  destruct (rounds p (start p disk zeroConfig) evs) as [m0|] eqn:Hr;
    [|discriminate].
  destruct (rounds_last _ _ _ _ Hr) as [[-> ->]|(pre & d & e & m1 & -> & _ & _ & Hs)].
  - destruct (start_outcomes p disk zeroConfig)
      as [(c' & _ & Hs)|[(Hs & _)|(Ha & Hs & _)]].
    + rewrite Hs. cbn [status]. intros [= <-]. exact I.
    + rewrite Hs. intros [= <-]. rewrite Hs. right. right. split; [reflexivity|].
      left. reflexivity.
    + rewrite Hs. intros [= <-]. rewrite Hs. exact Ha.
  - apply step_status in Hs.
    destruct e as [[| |]| |[resp|err]].
    + rewrite Hs. intros [= <-]. rewrite Hs. right. left. split; [reflexivity|].
      exists pre, d, (Signalled SIGINT). split; [reflexivity|]. left. reflexivity.
    + rewrite Hs. intros [= <-]. rewrite Hs. right. left. split; [reflexivity|].
      exists pre, d, (Signalled SIGTERM). split; [reflexivity|]. right. left. reflexivity.
    + destruct Hs as [Hs|[Hs|[Hs Ha]]]; rewrite Hs; intros [= <-]; rewrite Hs.
      * exact I.
      * right. right. split; [reflexivity|]. right.
        exists pre, d, (Signalled SIGHUP). split; reflexivity.
      * exact Ha.
    + rewrite Hs. intros [= <-]. cbn [status halt]. left. split; [reflexivity|].
      exists pre, d, Cancelled. split; reflexivity.
    + rewrite Hs. intros [= <-]. rewrite Hs. exact I.
    + rewrite Hs. intros [= <-]. cbn [status halt]. right. left. split; [reflexivity|].
      exists pre, d, (Ticked (GetErr err)). split; [reflexivity|].
      right. right. exists err. reflexivity.
Qed.

End Exit.

Section Files.
Context `{GoText}.

(** The passes over the environment and over the file do not look at the
    arguments that are left. *)
Lemma parseEnvFlags_withArgs env ns f a :
  flag.parseEnvFlags env ns (flag.withArgs f a) = keepArgs a (flag.parseEnvFlags env ns f).
Proof.
  revert f. induction ns as [|n ns IH]; intros f; [reflexivity|].
  cbn [flag.parseEnvFlags flag.actual flag.cells flag.withArgs].
  destruct (bool_decide _); [apply IH|].
  destruct (env !! flag.envKey n); [|apply IH].
  destruct (flag.set n s (flag.cells f)); [|reflexivity].
  apply (IH (flag.assigned f (flag.nameText n) c)).
Qed.

Lemma parseLines_withArgs lines f a :
  flag.parseLines lines (flag.withArgs f a) = keepArgs a (flag.parseLines lines f).
Proof.
  revert f. induction lines as [|l lines IH]; intros f; [reflexivity|].
  cbn [flag.parseLines flag.actual flag.cells flag.withArgs].
  destruct (String.eqb l ""); [apply IH|].
  destruct (String.prefix "#" l); [apply IH|].
  destruct (flag.cutAt flag.isEqOrSpace l) as [[nm v]|].
  - destruct (bool_decide _); [apply IH|].
    destruct (flag.formal nm) as [fl|]; [|reflexivity].
    destruct (flag.set fl v (flag.cells f)) as [c'|]; [|reflexivity].
    apply (IH (flag.assigned f nm c')).
  - destruct (bool_decide _); [apply IH|].
    destruct (flag.formal l); reflexivity.
Qed.

Lemma parseOne_positional f s rest :
  positional s = true ->
  flag.parseOne (flag.withArgs f (s :: rest)) = (false, None, flag.withArgs f (s :: rest)).
Proof.
  unfold flag.parseOne. cbn [flag.args flag.withArgs].
  destruct s as [|c [|c1 s2]]; [reflexivity| |].
  - destruct c as [[] [] [] [] [] [] [] []]; reflexivity.
  - destruct c as [[] [] [] [] [] [] [] []]; cbn [positional];
      first [discriminate | reflexivity].
Qed.

Lemma parseOne_terminator f rest :
  flag.parseOne (flag.withArgs f ("--" :: rest)) = (false, None, flag.withArgs f rest).
Proof. reflexivity. Qed.

Lemma init_finish c prog rest environ disk :
  init c (prog :: rest) environ disk =
  match flag.parseArgs (S (length rest))
          (flag.withArgs (NewFlagSet prog flag.ExitOnError) rest) with
  | inl e => (InitExit 2 e, c)
  | inr f1 => finish c (NewFlagSet prog flag.ExitOnError) f1 environ disk
  end.
Proof.
  unfold init, flag.Parse, finish.
  destruct (flag.parseArgs _ _) as [e|f1]; reflexivity.
Qed.

Lemma finish_withArgs c flags f1 a environ disk :
  finish c flags (flag.withArgs f1 a) environ disk = finish c flags f1 environ disk.
Proof.
  unfold finish, flag.ParseEnv. rewrite parseEnvFlags_withArgs.
  destruct (flag.parseEnvFlags _ _ f1) as [e|f2]; [reflexivity|].
  cbn [keepArgs flag.cells flag.withArgs].
  destruct (String.eqb _ ""); [reflexivity|].
  unfold flag.ParseFile. destruct (disk _) as [lines|]; [|reflexivity].
  rewrite parseLines_withArgs.
  destruct (flag.parseLines lines f2); reflexivity.
Qed.

(** X3. The options end at the first argument that is not one, or at [--]:
    [init] ignores whatever follows, even an option it would have
    rejected. *)
Theorem positional_argument_ends_the_options c prog bs s rest environ disk :
  positional s = true \/ s = "--" ->
  init c (prog :: flat_map render bs ++ s :: rest) environ disk =
  init c (prog :: flat_map render bs) environ disk.
Proof.
  intros Hs. rewrite !init_finish.
  rewrite <- (app_nil_r (flat_map render bs)) at 3 4.
  rewrite !parseArgs_bindings.
  destruct (bindAll bs (NewFlagSet prog flag.ExitOnError)) as [e|f']; [reflexivity|].
  rewrite !parseArgs_S. cbn [flag.parseOne flag.args flag.withArgs].
  destruct Hs as [Hs| ->].
  - pose proof (parseOne_positional f' s rest Hs) as Hp.
    unfold flag.parseOne in Hp. cbn [flag.args flag.withArgs] in Hp. rewrite Hp.
    rewrite !finish_withArgs. reflexivity.
  - pose proof (parseOne_terminator f' rest) as Hp.
    unfold flag.parseOne in Hp. cbn [flag.args flag.withArgs] in Hp. rewrite Hp.
    rewrite !finish_withArgs. reflexivity.
Qed.

(** The flags that the pass over the environment marks as set. *)
Lemma parseEnvFlags_actual env ns f f' :
  flag.parseEnvFlags env ns f = inr f' ->
  forall n, flag.nameText n ∈ flag.actual f' <->
            flag.nameText n ∈ flag.actual f \/
            (n ∈ ns /\ is_Some (env !! flag.envKey n)).
Proof.
  revert f. induction ns as [|n0 ns IH]; intros f Hp n.
  - injection Hp as <-. split; [left; assumption|].
    intros [?|[Hin _]]; [assumption|]. apply elem_of_nil in Hin. contradiction.
  - cbn [flag.parseEnvFlags] in Hp. rewrite elem_of_cons.
    case_bool_decide as Hset.
    + rewrite (IH _ Hp n). split; [intros [?|[? ?]]; auto|].
      intros [?|[[->|?] ?]]; auto.
    + destruct (env !! flag.envKey n0) as [v|] eqn:Hv.
      * destruct (flag.set n0 v (flag.cells f)) as [c'|]; [|discriminate].
        rewrite (IH _ Hp n). cbn [flag.actual flag.assigned].
        rewrite elem_of_union, elem_of_singleton. split.
        -- intros [[E|?]|[? ?]]; auto.
           apply nameText_inj in E. subst. right. split; [left; reflexivity|].
           rewrite Hv. eauto.
        -- intros [?|[[->|?] ?]]; auto.
      * rewrite (IH _ Hp n). split; [intros [?|[? ?]]; auto|].
        intros [?|[[->|?] Hs]]; auto. rewrite Hv in Hs. destruct Hs as [? Hs]. discriminate.
Qed.

(** The command line and the environment together, when both are well
    formed. *)
Lemma args_env_layers prog bs environ :
  Forall wellFormed bs -> envWellFormed environ bs ->
  exists f1 f2,
    bindAll bs (NewFlagSet prog flag.ExitOnError) = inr f1 /\
    flag.ParseEnv f1 environ = inr f2 /\
    flag.cells f2 =
      resolveBy (layered environ bs) (flag.cells (NewFlagSet prog flag.ExitOnError)) /\
    forall n, flag.nameText n ∈ flag.actual f2 <-> is_Some (layered environ bs n).
Proof.
  intros Hwf Henv.
  destruct (bindAll_wellFormed bs (NewFlagSet prog flag.ExitOnError) Hwf)
    as (f1 & Hb & Hc).
  assert (Hact : forall n, flag.nameText n ∈ flag.actual f1 <-> is_Some (supplied n bs)).
  { intros n. rewrite (bindAll_actual bs _ f1 Hb n). cbn [flag.actual NewFlagSet].
    split; [intros [Hin|?]; [|assumption]|right; assumption].
    apply not_elem_of_empty in Hin. contradiction. }
  unfold flag.ParseEnv.
  destruct (parseEnvFlags_layers (flag.envMap environ) flag.allNames f1
              (fun n => supplied n bs)
              (flag.cells (NewFlagSet prog flag.ExitOnError)) NoDup_allNames Hc Hact)
    as (f2 & val' & Hp & Hc2 & Hv).
  { intros n v _. apply Henv. }
  exists f1, f2. split; [exact Hb|]. split; [exact Hp|].
  assert (Hval : forall n, val' n = layered environ bs n).
  { intros n. rewrite Hv. unfold layered. destruct (supplied n bs); [reflexivity|].
    rewrite bool_decide_true by apply elem_of_allNames. reflexivity. }
  split; [rewrite Hc2; apply resolveBy_ext; exact Hval|].
  intros n. rewrite (parseEnvFlags_actual _ _ _ _ Hp n), Hact. unfold layered.
  destruct (supplied n bs) as [w|].
  - split; eauto.
  - split.
    + intros [[? Hs]|[_ Hs]]; [discriminate|exact Hs].
    + intros Hs. right. split; [apply elem_of_allNames|exact Hs].
Qed.





(** [init] up to the configuration file, on a well-formed command line and
    environment that name a file. *)
Lemma init_up_to_file c prog bs environ disk path :
  Forall wellFormed bs -> envWellFormed environ bs ->
  layered environ bs flag.Config = Some path -> path <> "" ->
  exists f2,
    flag.cells f2 =
      resolveBy (layered environ bs) (flag.cells (NewFlagSet prog flag.ExitOnError)) /\
    (forall n, flag.nameText n ∈ flag.actual f2 <-> is_Some (layered environ bs n)) /\
    init c (prog :: flat_map render bs) environ disk =
    match flag.ParseFile f2 disk path with
    | inl e => (InitExit 2 e, c)
    | inr f3 => (InitReturn None, configOf (flag.cells f3))
    end.
Proof.
  intros Hwf Henv Hpath Hne.
  destruct (args_env_layers prog bs environ Hwf Henv) as (f1 & f2 & Hb & Hp & Hc & Hact).
  exists f2. split; [exact Hc|]. split; [exact Hact|].
  rewrite init_finish. rewrite <- (app_nil_r (flat_map render bs)).
  rewrite parseArgs_bindings, Hb.
  change (flag.parseArgs (S (length [])) (flag.withArgs f1 []))
    with (@inr flag.Error _ (flag.withArgs f1 [])).
  cbv beta iota. rewrite finish_withArgs. unfold finish. rewrite Hp.
  assert (Hfile : flag.configFile (flag.cells f2) = path).
  { rewrite Hc. cbn [resolveBy flag.configFile]. rewrite Hpath. reflexivity. }
  cbn zeta. rewrite Hfile.
  destruct (String.eqb_spec path "") as [E|_]; [contradiction|].
  destruct (flag.ParseFile f2 disk path); reflexivity.
Qed.


(** X8. A configuration file that cannot be opened ends the process with
    status 2, and nothing is written about it: neither to standard error
    nor to the log. *)
Theorem missing_config_file_exits p prog bs disk path c :
  Args p = prog :: flat_map render bs ->
  Forall wellFormed bs -> envWellFormed (Environ p) bs ->
  layered (Environ p) bs flag.Config = Some path -> path <> "" ->
  disk path = None ->
  init c (Args p) (Environ p) disk = (InitExit 2 (flag.ErrOpen path), c) /\
  start p disk c = {| cfg := c; effects := [Load (Args p)]; status := Exited 2 |}.
Proof.
  intros Hargs Hwf Henv Hpath Hne Hdisk.
  assert (Hi : init c (Args p) (Environ p) disk = (InitExit 2 (flag.ErrOpen path), c)).
  { rewrite Hargs.
    destruct (init_up_to_file c prog bs (Environ p) disk path Hwf Henv Hpath Hne)
      as (f2 & _ & _ & ->).
    unfold flag.ParseFile. rewrite Hdisk. reflexivity. }
  split; [exact Hi|].
  unfold start, load. cbn [cfg]. rewrite Hi. reflexivity.
Qed.

Lemma parseOne_bare f n d :
  flag.parseOne (flag.withArgs f [bare n d]) =
  (false, Some (flag.ErrNeedsArgument flag.FromArgs (flag.nameText n)),
   flag.withArgs f []).
Proof. destruct n, d; reflexivity. Qed.

(** X4. An option that ends the command line without a value ends the
    process with status 2. *)
Theorem option_without_value_exits c prog bs n d environ disk :
  Forall wellFormed bs ->
  init c (prog :: flat_map render bs ++ [bare n d]) environ disk =
  (InitExit 2 (flag.ErrNeedsArgument flag.FromArgs (flag.nameText n)), c).
Proof.
  intros Hwf. rewrite init_finish, parseArgs_bindings.
  destruct (bindAll_wellFormed bs (NewFlagSet prog flag.ExitOnError) Hwf)
    as (f1 & -> & _).
  rewrite parseArgs_S, parseOne_bare. reflexivity.
Qed.

Lemma parseOne_undefined f nm rest :
  flag.badStart nm = false -> String.prefix "test." nm = false ->
  flag.formal (fst (flag.splitNameValue nm)) = None ->
  flag.parseOne (flag.withArgs f (String "-"%char nm :: rest)) =
  (false, Some (flag.undefined flag.FromArgs (fst (flag.splitNameValue nm))),
   flag.withArgs f rest).
Proof.
  intros Hb Hp Hf. unfold flag.parseOne. cbn [flag.args flag.withArgs].
  destruct nm as [|c1 s2]; [discriminate|].
  assert (Hc : Ascii.eqb c1 "-"%char = false).
  { cbn [flag.badStart] in Hb. apply orb_false_iff in Hb. apply Hb. }
  rewrite Hc. cbn [andb]. rewrite Hb, Hp.
  destruct (flag.splitNameValue (String c1 s2)) as [nm' value].
  cbn [fst] in Hf |- *. rewrite Hf. reflexivity.
Qed.

(** X5. An option that the flag set does not declare ends the process with
    status 2; it is not skipped. *)
Theorem undefined_option_exits c prog bs nm rest environ disk :
  Forall wellFormed bs ->
  flag.badStart nm = false -> String.prefix "test." nm = false ->
  flag.formal (fst (flag.splitNameValue nm)) = None ->
  init c (prog :: flat_map render bs ++ String "-"%char nm :: rest) environ disk =
  (InitExit 2 (flag.undefined flag.FromArgs (fst (flag.splitNameValue nm))), c).
Proof.
  intros Hwf Hb Hp Hf. rewrite init_finish, parseArgs_bindings.
  destruct (bindAll_wellFormed bs (NewFlagSet prog flag.ExitOnError) Hwf)
    as (f1 & -> & _).
  rewrite parseArgs_S, parseOne_undefined by assumption. reflexivity.
Qed.

End Files.

Section Env.
Context `{GoText}.

(** The pass over the environment fails when a flag that is not set has a
    variable that its type cannot parse. *)
Lemma parseEnvFlags_malformed env ns f n v :
  n ∈ ns -> flag.nameText n ∉ flag.actual f ->
  env !! flag.envKey n = Some v -> flag.set n v (flag.cells f) = None ->
  exists e, flag.parseEnvFlags env ns f = inl e.
Proof.
  revert f. induction ns as [|n0 ns IH]; intros f Hin Hset Hv Hbad.
  - apply elem_of_nil in Hin. contradiction.
  - cbn [flag.parseEnvFlags]. apply elem_of_cons in Hin.
    destruct (decide (n = n0)) as [<-|Hne].
    + rewrite bool_decide_false by exact Hset. rewrite Hv, Hbad. eauto.
    + destruct Hin as [?|Hin]; [contradiction|].
      case_bool_decide; [apply IH; assumption|].
      destruct (env !! flag.envKey n0) as [v0|]; [|apply IH; assumption].
      destruct (flag.set n0 v0 (flag.cells f)) as [c'|] eqn:Hs0; [|eauto].
      apply IH; try assumption.
      * cbn [flag.actual flag.assigned]. rewrite elem_of_union, elem_of_singleton.
        intros [E|?]; [|contradiction]. apply nameText_inj in E. contradiction.
      * cbn [flag.cells flag.assigned].
        apply set_None. apply set_None in Hbad. exact Hbad.
Qed.

(** X6. A variable of the environment whose value cannot be parsed ends the
    process with status 2 when the command line leaves its flag unset. *)
Theorem malformed_variable_exits c prog bs n v environ disk :
  Forall wellFormed bs -> supplied n bs = None ->
  flag.envMap environ !! flag.envKey n = Some v ->
  malformed {| bname := n; bdouble := false; bspelling := NextArgument; bvalue := v |} ->
  exists e, init c (prog :: flat_map render bs) environ disk = (InitExit 2 e, c).
Proof.
  intros Hwf Hs Hv Hbad.
  destruct (bindAll_wellFormed bs (NewFlagSet prog flag.ExitOnError) Hwf)
    as (f1 & Hb & Hc).
  rewrite init_finish. rewrite <- (app_nil_r (flat_map render bs)).
  rewrite parseArgs_bindings, Hb.
  change (flag.parseArgs (S (length [])) (flag.withArgs f1 []))
    with (@inr flag.Error _ (flag.withArgs f1 [])).
  cbv beta iota. rewrite finish_withArgs. unfold finish, flag.ParseEnv.
  destruct (parseEnvFlags_malformed (flag.envMap environ) flag.allNames f1 n v)
    as [e ->].
  - apply elem_of_allNames.
  - rewrite (bindAll_actual bs _ f1 Hb n). cbn [flag.actual NewFlagSet].
    intros [Hin|[w Hw]]; [|congruence].
    apply not_elem_of_empty in Hin. contradiction.
  - exact Hv.
  - apply set_None. exact Hbad.
  - exists e. reflexivity.
Qed.

End Env.

(** ** The claims on concrete runs *)

#[local] Existing Instance refText.

(** C8 on a command line that sets the status and the url, with the server
    taken from the environment and the other fields from the defaults. *)
Lemma load_valid_arguments_witness :
  init zeroConfig ["scraper"; "-status"; "404"; "--url=http://localhost/"]
    ["HOME=/root"; "SERVER=nginx"] noFiles =
  (InitReturn None,
   {| contentType := ""; server := "nginx"; statusCode := 404; tick := 60 * Second;
      url := "http://localhost/"; userAgent := "" |}).
Proof.
  assert (Hwf : Forall wellFormed validOptions).
  { apply List.Forall_cons; [exists 404; reflexivity|].
    apply List.Forall_cons; [exact I|]. apply List.Forall_nil. }
  assert (Henv : envWellFormed ["HOME=/root"; "SERVER=nginx"] validOptions).
  { intros n v Hs He. destruct n; try exact I; vm_compute in Hs, He; discriminate. }
  assert (Hcfg : default "" (layered ["HOME=/root"; "SERVER=nginx"] validOptions
                               flag.Config) = "") by (vm_compute; reflexivity).
  pose proof (load_valid_arguments zeroConfig "scraper" validOptions
                ["HOME=/root"; "SERVER=nginx"] noFiles Hwf Henv Hcfg) as W.
  vm_compute in W. vm_compute. exact W.
Defined.

(** C7 fails on the code: a zero and a negative tick parse, and [init]
    returns nil with that interval. *)
Lemma zero_tick_is_loaded :
  ParseDuration "0s" = Some 0 /\
  init zeroConfig zeroTickArgs [] noFiles =
  (InitReturn None,
   {| contentType := ""; server := ""; statusCode := 200; tick := 0;
      url := ""; userAgent := "" |}) /\
  ParseDuration "-5s" = Some (- (5 * Second)) /\
  init zeroConfig negativeTickArgs [] noFiles =
  (InitReturn None,
   {| contentType := ""; server := ""; statusCode := 200; tick := - (5 * Second);
      url := ""; userAgent := "" |}).
Proof. split; [|split; [|split]]; vm_compute; reflexivity. Qed.

(** C7, as the code has it, on the command line [-tick 0s]. *)
Lemma load_keeps_nonpositive_tick_witness :
  exists c',
    init zeroConfig ("scraper" :: flat_map render [option_ flag.Tick "0s"])
      ["HOME=/root"] noFiles =
    (InitReturn None, c') /\ tick c' = 0 /\ tick c' <= 0.
Proof.
  assert (Hwf : Forall wellFormed [option_ flag.Tick "0s"]).
  { apply List.Forall_cons; [exists 0; reflexivity|]. apply List.Forall_nil. }
  assert (Henv : envWellFormed ["HOME=/root"] [option_ flag.Tick "0s"]).
  { intros n v Hs He. destruct n; try exact I; vm_compute in Hs, He; discriminate. }
  assert (Hcfg : default "" (layered ["HOME=/root"] [option_ flag.Tick "0s"]
                               flag.Config) = "") by (vm_compute; reflexivity).
  assert (Hle : 0 <= 0) by lia.
  exact (load_keeps_nonpositive_tick zeroConfig "scraper" [option_ flag.Tick "0s"]
           ["HOME=/root"] noFiles "0s" 0 Hwf Henv Hcfg eq_refl eq_refl Hle).
Defined.

(** C6 on the command line [-status abc -url http://localhost/]. *)
Lemma load_malformed_value_witness :
  exists b, In b [option_ flag.Status "abc"] /\ malformed b /\
    let e := flag.ErrInvalidValue flag.FromArgs (bvalue b) (flag.nameText (bname b)) in
    forall c,
      init c (Args malformedProcess) (Environ malformedProcess) noFiles =
        (InitExit 2 e, c) /\
      start malformedProcess noFiles c =
        {| cfg := c;
           effects := [Load (Args malformedProcess); Stderr (ConfigError e)];
           status := Exited 2 |} /\
      (forall disk' ev,
         step malformedProcess disk' (start malformedProcess noFiles c) ev = None) /\
      main malformedProcess noFiles [] = Some (start malformedProcess noFiles zeroConfig).
Proof.
  assert (Hex : Exists malformed [option_ flag.Status "abc"]).
  { apply Exists_cons_hd. reflexivity. }
  assert (Hargs : Args malformedProcess =
            "scraper" :: flat_map render [option_ flag.Status "abc"] ++
            ["-url"; "http://localhost/"]) by (vm_compute; reflexivity).
  exact (load_malformed_value malformedProcess "scraper" [option_ flag.Status "abc"]
           ["-url"; "http://localhost/"] noFiles Hex Hargs).
Defined.

(** C1 fails on the code: the process is in the loop, its configuration
    file is edited to [status=abc], and the hang-up that follows ends the
    process with status 2. *)
Lemma reload_failure_ends_process :
  status started = Running /\
  step reloadProcess fileAtReload started (Signalled SIGHUP) =
    Some {| cfg := cfg started;
            effects :=
              effects started ++
              [Log GotHup; Load (Args reloadProcess);
               Stderr (ConfigError (flag.ErrInvalidValue flag.FromFile "abc" "status"))];
            status := Exited 2 |} /\
  main reloadProcess fileAtStart [(fileAtReload, Signalled SIGHUP)] =
    Some {| cfg := cfg started;
            effects :=
              effects started ++
              [Log GotHup; Load (Args reloadProcess);
               Stderr (ConfigError (flag.ErrInvalidValue flag.FromFile "abc" "status"))];
            status := Exited 2 |}.
Proof. split; [|split]; vm_compute; reflexivity. Qed.

(** C1, as the code has it, on a hang-up that finds the file unchanged. *)
Lemma hangup_reloads_witness :
  exists m', step reloadProcess fileAtStart started (Signalled SIGHUP) = Some m' /\
    loads (since started m') = 1%nat /\
    ((exists c', init (cfg started) (Args reloadProcess) (Environ reloadProcess) fileAtStart
                 = (InitReturn None, c') /\
        status m' = Running /\ cfg m' = c' /\
        forall disk' r, 0 < tick c' ->
          exists m'', step reloadProcess disk' m' (Ticked r) = Some m'' /\
            probes (since m' m'') = 1%nat /\ In (Get (url c')) (since m' m''))
     \/
     (exists e, init (cfg started) (Args reloadProcess) (Environ reloadProcess) fileAtStart
                = (InitExit 2 e, cfg started) /\
        status m' = Exited 2 /\ cfg m' = cfg started)).
Proof.
  assert (Hargs : Args reloadProcess <> []) by discriminate.
  assert (Hrun : status started = Running) by (vm_compute; reflexivity).
  exact (hangup_reloads reloadProcess fileAtStart started Hrun Hargs).
Defined.

(** C2 on a first tick whose request is refused. *)
Lemma transport_failure_is_fatal_witness :
  main reloadProcess fileAtStart [(fileAtStart, Ticked (GetErr "connection refused"))] =
    Some {| cfg := cfg started;
            effects :=
              effects started ++
              [Get (url (cfg started)); Stderr (TransportError "connection refused")];
            status := Exited 1 |}.
Proof.
  assert (Hevs : run reloadProcess fileAtStart zeroConfig [] = Some started)
    by (vm_compute; reflexivity).
  assert (Hrun : status started = Running) by (vm_compute; reflexivity).
  assert (Hpos : 0 < tick (cfg started)) by (vm_compute; reflexivity).
  exact (proj1 (proj2 (transport_failure_is_fatal reloadProcess fileAtStart []
                         started fileAtStart "connection refused" Hevs Hrun Hpos))).
Defined.

(** C4 on a SIGTERM that arrives before the first tick. *)
Lemma terminate_signal_shuts_down_witness :
  main reloadProcess fileAtStart [(fileAtStart, Signalled SIGTERM)] =
    Some {| cfg := cfg started;
            effects :=
              effects started ++ [Log GotTerm; Log Dying; Sleep (2 * Second); Log Dead];
            status := Exited 1 |}.
Proof.
  assert (Hevs : run reloadProcess fileAtStart zeroConfig [] = Some started)
    by (vm_compute; reflexivity).
  assert (Hrun : status started = Running) by (vm_compute; reflexivity).
  exact (terminate_signal_shuts_down reloadProcess fileAtStart [] started fileAtStart
           SIGTERM Hevs Hrun (or_intror eq_refl)).
Defined.

(** C5 on a cancellation that arrives before the first tick. *)
Lemma cancellation_returns_cleanly_witness :
  main reloadProcess fileAtStart [(fileAtStart, Cancelled)] =
    Some {| cfg := cfg started; effects := effects started; status := Exited 0 |}.
Proof.
  assert (Hevs : run reloadProcess fileAtStart zeroConfig [] = Some started)
    by (vm_compute; reflexivity).
  assert (Hrun : status started = Running) by (vm_compute; reflexivity).
  exact (proj1 (proj2 (cancellation_returns_cleanly reloadProcess fileAtStart []
                         started fileAtStart Hevs Hrun))).
Defined.

(** ** The further properties on concrete runs *)


(** X11 on a concrete input. [sampleRun] has two ticks and makes two requests. *)
Lemma one_get_per_tick_witness :
  probes (since started sampleEnd) = ticks sampleRun.
Proof.
  assert (Hr : rounds reloadProcess started sampleRun = Some sampleEnd)
    by (vm_compute; reflexivity).
  exact (one_get_per_tick reloadProcess started sampleRun sampleEnd Hr).
Defined.

(** X12 on a concrete input. [sampleRun] has one hang-up and calls [init] twice. *)
Lemma one_load_per_hangup_witness :
  loads (effects sampleEnd) = S (hangups sampleRun).
Proof.
  assert (Hr : run reloadProcess fileAtStart zeroConfig sampleRun = Some sampleEnd)
    by (vm_compute; reflexivity).
  exact (one_load_per_hangup reloadProcess fileAtStart zeroConfig sampleRun sampleEnd Hr).
Defined.

(** X13 on a concrete input. [quietRun] has no hang-up. *)
Lemma config_changes_only_on_hangup_witness :
  cfg quietEnd = cfg started /\
  requested (since started quietEnd) = repeat (url (cfg started)) (ticks quietRun).
Proof.
  assert (Hr : rounds reloadProcess started quietRun = Some quietEnd)
    by (vm_compute; reflexivity).
  assert (Hz : hangups quietRun = 0%nat) by (vm_compute; reflexivity).
  exact (config_changes_only_on_hangup reloadProcess started quietRun quietEnd Hr Hz).
Defined.

(** X14 on a concrete input. A hang-up after [quietRun], with the file as it was. *)
Lemma reload_of_unchanged_inputs_witness :
  exists m', step reloadProcess fileAtStart quietEnd (Signalled SIGHUP) = Some m' /\
    status m' = Running /\ cfg m' = cfg quietEnd /\
    logged (since quietEnd m') = [GotHup].
Proof.
  assert (Hr : run reloadProcess fileAtStart zeroConfig quietRun = Some quietEnd)
    by (vm_compute; reflexivity).
  assert (Hz : hangups quietRun = 0%nat) by (vm_compute; reflexivity).
  assert (Hs : status quietEnd = Running) by (vm_compute; reflexivity).
  exact (reload_of_unchanged_inputs reloadProcess fileAtStart zeroConfig quietRun
           quietEnd Hr Hz Hs).
Defined.

(** X9 on a concrete input. The log of [sampleRun]. *)
Lemma one_start_line_witness :
  (exists c' rest,
     init zeroConfig (Args reloadProcess) (Environ reloadProcess) fileAtStart =
       (InitReturn None, c') /\
     logged (effects sampleEnd) = Starting (tick c') (Pid reloadProcess) :: rest /\
     starts rest = 0%nat) \/
  (sampleRun = [] /\ status sampleEnd <> Running /\ logged (effects sampleEnd) = []).
Proof.
  assert (Hr : run reloadProcess fileAtStart zeroConfig sampleRun = Some sampleEnd)
    by (vm_compute; reflexivity).
  exact (one_start_line reloadProcess fileAtStart zeroConfig sampleRun sampleEnd Hr).
Defined.

(** X15 on a concrete input. A process started with [-tick 0s] that receives a SIGTERM. *)
Lemma nonpositive_tick_never_probes_witness :
  ticks [(noFiles, Signalled SIGTERM)] = 0%nat /\
  probes (since zeroTickStarted
            (endOf zeroTickProcess zeroTickStarted [(noFiles, Signalled SIGTERM)])) = 0%nat.
Proof.
  assert (Hle : tick (cfg zeroTickStarted) <= 0) by (vm_compute; discriminate).
  assert (Hz : hangups [(noFiles, Signalled SIGTERM)] = 0%nat) by reflexivity.
  assert (Hr : rounds zeroTickProcess zeroTickStarted [(noFiles, Signalled SIGTERM)] =
               Some (endOf zeroTickProcess zeroTickStarted [(noFiles, Signalled SIGTERM)]))
    by (vm_compute; reflexivity).
  exact (nonpositive_tick_never_probes zeroTickProcess zeroTickStarted
           [(noFiles, Signalled SIGTERM)] _ Hle Hz Hr).
Defined.

(** X16 on a concrete input. Two probes of a response that mismatches. *)
Lemma mismatches_are_not_fatal_witness :
  exists m',
    rounds reloadProcess started
      (map (fun dr => (fst dr, Ticked (GetOk (snd dr))))
         [(fileAtStart, nginxResponse); (fileAtStart, nginxResponse)]) = Some m' /\
    status m' = Running /\ cfg m' = cfg started /\
    probes (since started m') =
      length [(fileAtStart, nginxResponse); (fileAtStart, nginxResponse)].
Proof.
  assert (Hs : status started = Running) by (vm_compute; reflexivity).
  assert (Hpos : 0 < tick (cfg started)) by (vm_compute; reflexivity).
  exact (mismatches_are_not_fatal reloadProcess started
           [(fileAtStart, nginxResponse); (fileAtStart, nginxResponse)] Hs Hpos).
Defined.

(** X17 on a concrete input. A cancellation: the process ends with status 0. *)
Lemma exit_status_tells_the_cause_witness :
  exitCause (Args reloadProcess) [(fileAtStart, Cancelled)] (Exited 0).
Proof.
  assert (Hm : main reloadProcess fileAtStart [(fileAtStart, Cancelled)] =
               Some {| cfg := cfg started; effects := effects started; status := Exited 0 |})
    by (vm_compute; reflexivity).
  exact (exit_status_tells_the_cause reloadProcess fileAtStart
           [(fileAtStart, Cancelled)] _ Hm).
Defined.

(** X3 on a concrete input. [scraper -url http://localhost/ stop -status abc] loads like
    [scraper -url http://localhost/]. *)
Lemma positional_argument_ends_the_options_witness :
  init zeroConfig
    ("scraper" :: flat_map render [option_ flag.Url "http://localhost/"] ++
     "stop" :: ["-status"; "abc"]) ["HOME=/root"] noFiles =
  init zeroConfig ("scraper" :: flat_map render [option_ flag.Url "http://localhost/"])
    ["HOME=/root"] noFiles.
Proof.
  assert (Hs : positional "stop" = true \/ "stop" = "--") by (left; reflexivity).
  exact (positional_argument_ends_the_options zeroConfig "scraper"
           [option_ flag.Url "http://localhost/"] "stop" ["-status"; "abc"]
           ["HOME=/root"] noFiles Hs).
Defined.


(** X8 on a concrete input. [reloadProcess] started when its file cannot be opened. *)
Lemma missing_config_file_exits_witness :
  init zeroConfig (Args reloadProcess) (Environ reloadProcess) noFiles =
    (InitExit 2 (flag.ErrOpen "scraper.conf"), zeroConfig) /\
  start reloadProcess noFiles zeroConfig =
    {| cfg := zeroConfig; effects := [Load (Args reloadProcess)]; status := Exited 2 |}.
Proof.
  assert (Hargs : Args reloadProcess = "scraper" :: flat_map render fileOptions)
    by (vm_compute; reflexivity).
  assert (Hwf : Forall wellFormed fileOptions).
  { apply List.Forall_cons; [exact I|].
    apply List.Forall_cons; [exact I|]. apply List.Forall_nil. }
  assert (Henv : envWellFormed (Environ reloadProcess) fileOptions).
  { intros n v Hs He. destruct n; try exact I; vm_compute in Hs, He; discriminate. }
  assert (Hpath : layered (Environ reloadProcess) fileOptions flag.Config =
                  Some "scraper.conf") by (vm_compute; reflexivity).
  assert (Hne : "scraper.conf" <> "") by discriminate.
  exact (missing_config_file_exits reloadProcess "scraper" fileOptions noFiles
           "scraper.conf" zeroConfig Hargs Hwf Henv Hpath Hne eq_refl).
Defined.

(** X4 on a concrete input. [scraper -status 404 --url]. *)
Lemma option_without_value_exits_witness :
  init zeroConfig
    ("scraper" :: flat_map render [option_ flag.Status "404"] ++ [bare flag.Url true])
    ["HOME=/root"] noFiles =
  (InitExit 2 (flag.ErrNeedsArgument flag.FromArgs (flag.nameText flag.Url)), zeroConfig).
Proof.
  assert (Hwf : Forall wellFormed [option_ flag.Status "404"]).
  { apply List.Forall_cons; [exists 404; reflexivity|]. apply List.Forall_nil. }
  exact (option_without_value_exits zeroConfig "scraper" [option_ flag.Status "404"]
           flag.Url true ["HOME=/root"] noFiles Hwf).
Defined.

(** X5 on a concrete input. [scraper -status 404 -verbose]. *)
Lemma undefined_option_exits_witness :
  init zeroConfig
    ("scraper" :: flat_map render [option_ flag.Status "404"] ++
     String "-"%char "verbose" :: []) ["HOME=/root"] noFiles =
  (InitExit 2 (flag.undefined flag.FromArgs (fst (flag.splitNameValue "verbose"))),
   zeroConfig).
Proof.
  assert (Hwf : Forall wellFormed [option_ flag.Status "404"]).
  { apply List.Forall_cons; [exists 404; reflexivity|]. apply List.Forall_nil. }
  assert (Hb : flag.badStart "verbose" = false) by reflexivity.
  assert (Hp : String.prefix "test." "verbose" = false) by reflexivity.
  assert (Hf : flag.formal (fst (flag.splitNameValue "verbose")) = None) by reflexivity.
  exact (undefined_option_exits zeroConfig "scraper" [option_ flag.Status "404"]
           "verbose" [] ["HOME=/root"] noFiles Hwf Hb Hp Hf).
Defined.

(** X6 on a concrete input. [STATUS=abc scraper]. *)
Lemma malformed_variable_exits_witness :
  exists e,
    init zeroConfig ("scraper" :: flat_map render []) ["STATUS=abc"] noFiles =
    (InitExit 2 e, zeroConfig).
Proof.
  assert (Hwf : Forall wellFormed []) by apply List.Forall_nil.
  assert (Hv : flag.envMap ["STATUS=abc"] !! flag.envKey flag.Status = Some "abc")
    by (vm_compute; reflexivity).
  assert (Hbad : malformed (option_ flag.Status "abc")) by reflexivity.
  exact (malformed_variable_exits zeroConfig "scraper" [] flag.Status "abc"
           ["STATUS=abc"] noFiles Hwf eq_refl Hv Hbad).
Defined.
